(** * new_main_supcon_Generalization.py: the contrastive training driver

    A shallow embedding of the training script
    [src/new_main_supcon_Generalization.py] and the properties its
    specification states about it.

    Layout:
    - [Py]: the pieces of the Python runtime the script relies on
      (exceptions, [int(...)], [str.split], [str(int)], [os.path.join],
      floats and int-to-float conversion);
    - [Torch]: [torch.cat] and [torch.split] along the batch dimension and
      the [unsqueeze(1)] / [cat(dim=1)] pairing;
    - [Util]: [AverageMeter], modelled from the specification;
    - [Argparse]: the parser that [parse_option] declares;
    - [Main]: the script itself, [parse_option], [set_loader],
      [set_model], [train] and [main], in a monad of worlds and
      exceptions, over the collaborators it imports;
    - [Sample]: a runtime and collaborators on which the script runs;
    - the vocabulary of the properties, and [LiveMeters], the driver as
      the specification's data model reads its meters;
    - the properties, C1 to C10. *)

From Stdlib Require Import ZArith List String Ascii Bool Lia.
From Stdlib Require DecimalString.
From Stdlib Require Import Floats.
Import ListNotations.

#[local] Set Warnings "-inexact-float".
Local Open Scope string_scope.
Local Open Scope list_scope.
Local Open Scope Z_scope.

(* ===================================================================== *)
(** ** The Python runtime *)
(* ===================================================================== *)

Module Py.

(** Exceptions the script can raise, by class.  [SystemExit 2] is what
    [argparse] raises through [parser.error]; its argument here is the
    option the error is about. *)
Inductive exn : Type :=
| SystemExit (code : Z) (about : string)
| AssertionError
| ValueError (msg : string)
| ZeroDivisionError
| OverflowError
| NameError (name : string)
| UnboundLocalError (name : string)
| RuntimeError (msg : string).

Inductive result (A : Type) : Type :=
| Ok (a : A)
| Raise (e : exn).
Arguments Ok {A} a.
Arguments Raise {A} e.

Definition rbind {A B} (r : result A) (k : A -> result B) : result B :=
  match r with
  | Ok a => k a
  | Raise e => Raise e
  end.

Declare Scope py_scope.
Delimit Scope py_scope with py.
Notation "'try' x <- r ; k" := (rbind r (fun x => k))
  (at level 10, x pattern, r at level 100, k at level 200) : py_scope.

(** *** Characters and strings *)

(** ASCII characters for which [str.isspace] holds; [int(...)] strips
    them from both ends of its argument.  Strings are byte strings here:
    the non-ASCII white space and digits that Python also accepts are
    outside this model. *)
Definition is_space (c : ascii) : bool :=
  let n := nat_of_ascii c in
  ((9 <=? n) && (n <=? 13) || (28 <=? n) && (n <=? 32))%nat.

Definition digit_value (c : ascii) : option Z :=
  let n := nat_of_ascii c in
  if ((48 <=? n) && (n <=? 57))%nat then Some (Z.of_nat n - 48) else None.

Fixpoint lstrip (s : list ascii) : list ascii :=
  match s with
  | c :: s' => if is_space c then lstrip s' else s
  | [] => []
  end.

Definition strip (s : list ascii) : list ascii :=
  List.rev (lstrip (List.rev (lstrip s))).

(** The digits of a decimal literal, most significant first, with
    Python's rule for underscores: single ones, between digits only.
    [acc] is the value read so far and [prev_digit] says whether the
    previous character was a digit. *)
Fixpoint digits_value (s : list ascii) (acc : Z) (prev_digit : bool)
  : option Z :=
  match s with
  | [] => if prev_digit then Some acc else None
  | c :: s' =>
      match digit_value c with
      | Some d => digits_value s' (10 * acc + d) true
      | None =>
          if (Ascii.eqb c "_" && prev_digit)%bool
          then digits_value s' acc false
          else None
      end
  end.

(** [int(s)] for a string [s], base 10; [None] is [ValueError].  The
    interpreter's limit on the number of digits is not modelled. *)
Definition int_of_str (s : string) : option Z :=
  match strip (list_ascii_of_string s) with
  | "-"%char :: ds => option_map Z.opp (digits_value ds 0 false)
  | "+"%char :: ds => digits_value ds 0 false
  | ds => digits_value ds 0 false
  end.

(** [str(n)] for an int [n]. *)
Definition str_of_int (n : Z) : string :=
  DecimalString.NilZero.string_of_int (Z.to_int n).

(** [s.split(',')]: the pieces between the commas, empty ones included,
    so a string with [k] commas gives [k + 1] pieces. *)
Fixpoint split_comma_aux (s : string) (cur : string) : list string :=
  match s with
  | EmptyString => [cur]
  | String c s' =>
      if Ascii.eqb c ","
      then cur :: split_comma_aux s' EmptyString
      else split_comma_aux s' (cur ++ String c EmptyString)%string
  end.

Definition split_comma (s : string) : list string :=
  split_comma_aux s EmptyString.

Definition starts_with_slash (s : string) : bool :=
  match s with
  | String c _ => Ascii.eqb c "/"
  | EmptyString => false
  end.

Fixpoint ends_with_slash (s : string) : bool :=
  match s with
  | EmptyString => false
  | String c EmptyString => Ascii.eqb c "/"
  | String _ s' => ends_with_slash s'
  end.

(** [os.path.join(a, b)] of [posixpath], two components. *)
Definition path_join (a b : string) : string :=
  if starts_with_slash b then b
  else if (String.eqb a "" || ends_with_slash a)%bool then (a ++ b)%string
  else (a ++ "/" ++ b)%string.

(** *** Floats *)

(** Python floats are IEEE 754 binary64 numbers: [PrimFloat.float], with
    its [+], [-], [*] and [/].  An int operand of a float operation is
    converted first, rounding to nearest-even; a value that rounds to
    infinity raises [OverflowError]. *)
Definition float_of_Z (n : Z) : float :=
  SF2Prim (binary_normalize prec emax n 0 false).

Definition float_of_int (n : Z) : result float :=
  let f := float_of_Z n in
  if PrimFloat.is_infinity f then Raise OverflowError else Ok f.

(** [x / n] for a float [x] and an int [n]. *)
Definition truediv_int (x : float) (n : Z) : result float :=
  (try d <- float_of_int n;
   if (n =? 0)%Z then Raise ZeroDivisionError else Ok (x / d)%float)%py.

(** What the script takes from the interpreter and [math] without this
    development fixing it: reading and printing floats, [x ** n] and
    [math.cos] (both may raise), the wall clock, and the CUDA probe. *)
Record runtime : Type := {
  float_of_str : string -> option float;   (* float(s); None = ValueError *)
  str_of_float : float -> string;          (* '{}'.format(x) *)
  float_pow : float -> Z -> option float;  (* x ** n; None = OverflowError *)
  math_cos : float -> option float;        (* None = ValueError *)
  time_time : nat -> float;                (* the k-th reading of the clock *)
  cuda_is_available : bool;
  cuda_device_count : Z
}.

Definition math_pi : float := 0x1.921fb54442d18p+1%float.

End Py.

Import Py.
Local Open Scope py_scope.

(* ===================================================================== *)
(** ** torch: tensors along the batch dimension *)
(* ===================================================================== *)

Module Torch.

(** A tensor of shape [[B, ...]] is the list of its [B] slices along
    dimension 0, in order.  The slices of one tensor share a shape; the
    script never looks at the trailing dimensions, and neither do the
    operations below. *)
Section Rows.
Context {A : Type}.

(** [torch.cat([a, b], dim=0)]. *)
Definition cat (a b : list A) : list A := a ++ b.

(** [torch.split(t, [n1, n2], dim=0)]: the sizes must add up to the
    size of [t] along dimension 0. *)
Definition split (t : list A) (n1 n2 : nat) : result (list A * list A) :=
  if (n1 + n2 =? List.length t)%nat
  then Ok (firstn n1 t, firstn n2 (skipn n1 t))
  else Raise (RuntimeError "split_with_sizes expects split_sizes to sum exactly to the size of dimension 0").

(** [t.unsqueeze(1)]: shape [[B, D]] becomes [[B, 1, D]]. *)
Definition unsqueeze1 (t : list A) : list (list A) :=
  map (fun r => [r]) t.

Fixpoint zip_app (a b : list (list A)) : list (list A) :=
  match a, b with
  | r :: a', r' :: b' => (r ++ r') :: zip_app a' b'
  | _, _ => []
  end.

(** [torch.cat([a, b], dim=1)]: the sizes along dimension 0 must
    agree. *)
Definition cat1 (a b : list (list A)) : result (list (list A)) :=
  if (List.length a =? List.length b)%nat
  then Ok (zip_app a b)
  else Raise (RuntimeError "Sizes of tensors must match except in dimension 1").
End Rows.

End Torch.

(* ===================================================================== *)
(** ** util: the running-average meter *)
(* ===================================================================== *)

Module Util.

(** Modelled from the spec: the class [AverageMeter] of [util], which is
    not among the sources.  The specification's metric accumulator holds
    a running sum and a running count; [update(value, weight)] adds
    [value * weight] to the sum and [weight] to the count; the average is
    [sum / count], and is undefined (should fail) while the count is
    zero. *)
Record AverageMeter : Type := {
  sum : float;
  count : Z
}.

Definition new_meter : AverageMeter := {| sum := 0; count := 0 |}.

Definition update (m : AverageMeter) (val : float) (n : Z)
  : result AverageMeter :=
  try w <- float_of_int n;
  Ok {| sum := (sum m + val * w)%float; count := count m + n |}.

(** The average; [before_update] is what it gives while the count is
    zero, which the specification leaves undefined. *)
Definition avg (before_update : result float) (m : AverageMeter)
  : result float :=
  if count m =? 0 then before_update else truediv_int (sum m) (count m).

End Util.

Import Torch Util.

(* ===================================================================== *)
(** ** argparse: the command line of [parse_option] *)
(* ===================================================================== *)

Module Argparse.

(** The command line after [argparse] has recognised the option strings:
    [--name value] is [Opt name value] and a bare [--name] is
    [Flag name].  Names are complete option names (abbreviations are
    resolved before this point). *)
Inductive arg : Type :=
| Opt (name value : string)
| Flag (name : string).

(** The [Namespace] that [parser.parse_args()] returns, one field per
    [add_argument]. *)
Record namespace : Type := {
  print_freq : Z;
  save_freq : Z;
  batch_size : Z;
  num_workers : Z;
  epochs : Z;
  learning_rate : float;
  lr_decay_epochs : string;
  lr_decay_rate : float;
  weight_decay : float;
  momentum : float;
  model : string;
  dataset : string;
  mean : option string;
  std : option string;
  data_folder : option string;
  size : Z;
  method : string;
  temp : float;
  cosine : bool;
  syncBN : bool;
  warm : bool;
  trial : string
}.

Definition mem (s : string) (l : list string) : bool :=
  existsb (String.eqb s) l.

Definition int_options : list string :=
  ["print_freq"; "save_freq"; "batch_size"; "num_workers"; "epochs"; "size"].
Definition float_options : list string :=
  ["learning_rate"; "lr_decay_rate"; "weight_decay"; "momentum"; "temp"].
Definition str_options : list string :=
  ["lr_decay_epochs"; "model"; "mean"; "std"; "data_folder"; "trial"].
Definition store_true_options : list string :=
  ["cosine"; "syncBN"; "warm"].
Definition dataset_choices : list string := ["rf"; "sp"].
Definition method_choices : list string := ["SupCon"; "SimCLR"].

(** What [argparse] does with one argument: store it, stop with a usage
    error ([parser.error], exit status 2), or set it aside as
    unrecognised, which is reported once every argument has been
    looked at. *)
Inductive verdict : Type :=
| Accept
| Reject
| Unrecognized.

Section WithRuntime.
Variable rt : runtime.

Definition check (a : arg) : verdict :=
  match a with
  | Opt name v =>
      if mem name int_options then
        match int_of_str v with Some _ => Accept | None => Reject end
      else if mem name float_options then
        match float_of_str rt v with Some _ => Accept | None => Reject end
      else if String.eqb name "dataset" then
        if mem v dataset_choices then Accept else Reject
      else if String.eqb name "method" then
        if mem v method_choices then Accept else Reject
      else if mem name str_options then Accept
      else Unrecognized
  | Flag name =>
      if mem name store_true_options then Accept
      else if mem name (int_options ++ float_options ++ str_options
                          ++ ["dataset"; "method"])
      then Reject
      else Unrecognized
  end.

Definition arg_name (a : arg) : string :=
  match a with Opt name _ => name | Flag name => name end.

(** The first argument that stops the parser, if any. *)
Fixpoint first_reject (argv : list arg) : option arg :=
  match argv with
  | [] => None
  | a :: rest =>
      match check a with
      | Reject => Some a
      | _ => first_reject rest
      end
  end.

Definition unrecognized (argv : list arg) : list arg :=
  filter (fun a => match check a with Unrecognized => true | _ => false end)
         argv.

(** The value of the last [--name value] on the command line. *)
Fixpoint last_value (name : string) (argv : list arg) : option string :=
  match argv with
  | [] => None
  | a :: rest =>
      match last_value name rest with
      | Some v => Some v
      | None =>
          match a with
          | Opt n v => if String.eqb n name then Some v else None
          | Flag _ => None
          end
      end
  end.

Definition has_flag (name : string) (argv : list arg) : bool :=
  existsb (fun a => match a with
                    | Flag n => String.eqb n name
                    | Opt _ _ => false
                    end) argv.

Definition int_value (name : string) (default : Z) (argv : list arg) : Z :=
  match last_value name argv with
  | Some v => match int_of_str v with Some n => n | None => default end
  | None => default
  end.

Definition float_value (name : string) (default : float) (argv : list arg)
  : float :=
  match last_value name argv with
  | Some v => match float_of_str rt v with Some x => x | None => default end
  | None => default
  end.

Definition str_value (name : string) (default : string) (argv : list arg)
  : string :=
  match last_value name argv with
  | Some v => v
  | None => default
  end.

(** [parser.parse_args()] with the arguments and defaults that
    [parse_option] declares. *)
Definition parse_args (argv : list arg) : result namespace :=
  match first_reject argv with
  | Some a => Raise (SystemExit 2 (arg_name a))
  | None =>
      match unrecognized argv with
      | a :: _ => Raise (SystemExit 2 "unrecognized arguments")
      | [] =>
          Ok {| print_freq := int_value "print_freq" 10 argv;
                save_freq := int_value "save_freq" 4 argv;
                batch_size := int_value "batch_size" 256 argv;
                num_workers := int_value "num_workers" 16 argv;
                epochs := int_value "epochs" 1000 argv;
                learning_rate := float_value "learning_rate" 0.05 argv;
                lr_decay_epochs :=
                  str_value "lr_decay_epochs" "700,800,900" argv;
                lr_decay_rate := float_value "lr_decay_rate" 0.1 argv;
                weight_decay := float_value "weight_decay" 1e-4 argv;
                momentum := float_value "momentum" 0.9 argv;
                model := str_value "model" "CustomCNN" argv;
                dataset := str_value "dataset" "sp" argv;
                mean := last_value "mean" argv;
                std := last_value "std" argv;
                data_folder := last_value "data_folder" argv;
                size := int_value "size" 32 argv;
                method := str_value "method" "SupCon" argv;
                temp := float_value "temp" 0.07 argv;
                cosine := has_flag "cosine" argv;
                syncBN := has_flag "syncBN" argv;
                warm := has_flag "warm" argv;
                trial := str_value "trial" "0" argv |}
      end
  end.
End WithRuntime.

End Argparse.

(* ===================================================================== *)
(** ** The script *)
(* ===================================================================== *)

Module Main.

Import Argparse.

(** *** Data *)

(** [opt] as [parse_option] returns it: the parsed arguments, with
    [data_folder], [lr_decay_epochs] and [warm] overwritten and the
    derived attributes added.  The three warmup attributes exist only
    when warmup is on. *)
Record options : Type := {
  print_freq : Z;
  save_freq : Z;
  batch_size : Z;
  num_workers : Z;
  epochs : Z;
  learning_rate : float;
  lr_decay_epochs : list Z;
  lr_decay_rate : float;
  weight_decay : float;
  momentum : float;
  model : string;
  dataset : string;
  mean : option string;
  std : option string;
  data_folder : string;
  size : Z;
  method : string;
  temp : float;
  cosine : bool;
  syncBN : bool;
  warm : bool;
  trial : string;
  model_path : string;
  tb_path : string;
  model_name : string;
  warmup_from : option float;
  warm_epochs : option Z;
  warmup_to : option float;
  tb_folder : string;
  save_folder : string
}.

(** One sample of a view (an image tensor), one embedding vector, and a
    batch as the loader yields it: [(images, labels)] with
    [images = [view1, view2]]. *)
Definition image : Type := list float.
Definition embedding : Type := list float.
Definition batch : Type := (list image * list image) * list Z.

(** The encoders of [networks.resnet_big], by constructor. *)
Inductive network : Type :=
| CustomCNN
| CustomCNNmini
| CustomCNNminidrop
| SupConResNet (name : string).

Record model_obj : Type := {
  net : network;
  data_parallel : bool;
  on_cuda : bool
}.

Record criterion_obj : Type := {
  temperature : float;
  criterion_on_cuda : bool
}.

Record loader : Type := {
  data_dir : string;
  loader_batch_size : Z;
  loader_num_workers : Z
}.

(** The trainable state that [train] mutates in place: the parameters of
    the model and the optimizer with its current learning rate
    ([optimizer.param_groups[0]['lr']]). *)
Record trainer : Type := {
  the_model : model_obj;
  params : list float;
  lr : float
}.

Record meters : Type := {
  batch_time : AverageMeter;
  data_time : AverageMeter;
  losses : AverageMeter
}.

(** What a run does to the outside, in order. *)
Inductive event : Type :=
| Makedirs (path : string)
| Print (line : string)
| NewDataset (dir : string)
| NewDataLoader (l : loader)
| NewModel (n : network)
| NewCriterion (temperature : float)
| NewLogger (logdir : string)
| AdjustLearningRate (epoch : Z)
| Fetch (epoch : Z) (idx : nat)
| OptimizerStep (epoch : Z) (idx : nat)
| PrintProgress (epoch : Z) (step total : nat) (m : meters)
| PrintEpoch (epoch : Z) (seconds : float)
| LogValue (name : string) (value : float) (epoch : Z)
| SaveModel (file : string) (epoch : Z).

(** The world outside the process: the directories that exist, how often
    the clock has been read, and the events so far (oldest first). *)
Record world : Type := {
  dirs : list string;
  ticks : nat;
  log : list event
}.

(** *** The monad of the stateful functions: a world in, a result and a
    world out.  An exception keeps the world as it was when raised. *)
Definition M (A : Type) : Type := world -> result A * world.

Definition ret {A} (a : A) : M A := fun w => (Ok a, w).
Definition raise {A} (e : exn) : M A := fun w => (Raise e, w).
Definition bind {A B} (c : M A) (k : A -> M B) : M B :=
  fun w => match c w with
           | (Ok a, w') => k a w'
           | (Raise e, w') => (Raise e, w')
           end.
Definition lift {A} (r : result A) : M A := fun w => (r, w).

Notation "'do' x <- c ; k" := (bind c (fun x => k))
  (at level 10, x pattern, c at level 100, k at level 200) : py_scope.

Definition emit (e : event) : M unit :=
  fun w => (Ok tt, {| dirs := dirs w; ticks := ticks w; log := log w ++ [e] |}).

Definition isdir (p : string) : M bool :=
  fun w => (Ok (mem p (dirs w)), w).

(** [os.makedirs(p)].  Only the leaf is recorded: the script asks
    [isdir] of the two leaves it creates and of nothing else.  Failures
    of the file system are not modelled. *)
Definition makedirs (p : string) : M unit :=
  fun w => (Ok tt, {| dirs := p :: dirs w; ticks := ticks w;
                      log := log w ++ [Makedirs p] |}).

(** [a % b] on ints: floored, as [Z.modulo]; zero divisor raises. *)
Definition py_mod (a b : Z) : result Z :=
  if b =? 0 then Raise ZeroDivisionError else Ok (a mod b).

Section WithRuntime.
Variable rt : runtime.

Definition time_now : M float :=
  fun w => (Ok (time_time rt (ticks w)),
            {| dirs := dirs w; ticks := S (ticks w); log := log w |}).

(** *** parse_option *)

(** [list([int(it) for it in iterations])]: the first piece that is
    not an int literal raises [ValueError]. *)
Fixpoint int_list (iterations : list string) : result (list Z) :=
  match iterations with
  | [] => Ok []
  | it :: rest =>
      match int_of_str it with
      | None =>
          Raise (ValueError
                   ("invalid literal for int() with base 10: '" ++ it ++ "'"))
      | Some n => try ns <- int_list rest; Ok (n :: ns)
      end
  end.

(** The value of the cosine schedule at the end of warmup, lines
    78-80. *)
Definition cosine_warmup_to (learning_rate lr_decay_rate : float)
           (warm_epochs epochs : Z) : result float :=
  try p <- match float_pow rt lr_decay_rate 3 with
           | Some p => Ok p
           | None => Raise OverflowError
           end;
  let eta_min := (learning_rate * p)%float in
  try w <- float_of_int warm_epochs;
  try x <- truediv_int (math_pi * w)%float epochs;
  try c <- match math_cos rt x with
           | Some c => Ok c
           | None => Raise (ValueError "math domain error")
           end;
  Ok (eta_min + (learning_rate - eta_min) * (1 + c) / 2)%float.

Definition base_model_name (ns : namespace) : string :=
  ("tran" ++ Argparse.method ns ++ "_" ++ Argparse.dataset ns ++ "_"
     ++ Argparse.model ns
     ++ "_lr_" ++ str_of_float rt (Argparse.learning_rate ns)
     ++ "_decay_" ++ str_of_float rt (Argparse.weight_decay ns)
     ++ "_bsz_" ++ str_of_int (Argparse.batch_size ns)
     ++ "_temp_" ++ str_of_float rt (Argparse.temp ns)
     ++ "_trial_" ++ Argparse.trial ns)%string.

(** Lines 53-54. *)
Definition check_required (ns : namespace) : result unit :=
  if mem (Argparse.dataset ns) ["path"; "rf"]
  then match Argparse.data_folder ns, Argparse.mean ns,
             Argparse.std ns with
       | Some _, Some _, Some _ => Ok tt
       | _, _, _ => Raise AssertionError
       end
  else Ok tt.

(** Lines 71-82: the final [warm], the model name, and [warmup_from],
    [warm_epochs] and [warmup_to] where they are set. *)
Definition warmup_setup (ns : namespace) (name : string)
  : result (bool * string * option float * option Z * option float) :=
  let warm' :=
    if Argparse.batch_size ns >? 256 then true else Argparse.warm ns in
  if warm'
  then
    let warm_epochs' := 10 in
    try to <- (if Argparse.cosine ns
               then cosine_warmup_to (Argparse.learning_rate ns)
                                     (Argparse.lr_decay_rate ns)
                                     warm_epochs' (Argparse.epochs ns)
               else Ok (Argparse.learning_rate ns));
    Ok (true, (name ++ "_warm")%string,
        Some 0.01%float, Some warm_epochs', Some to)
  else Ok (false, name, None, None, None).

(** Lines 85-86 and 89-90. *)
Definition ensure_dir (p : string) : M unit :=
  do exists_ <- isdir p;
  if exists_ then ret tt else makedirs p.

Definition parse_option (argv : list arg) : M options :=
  do ns <- lift (parse_args rt argv);
  do _ <- lift (check_required ns);
  let data_folder' :=
    match Argparse.data_folder ns with
    | None => "./datasets/"
    | Some d => d
    end in
  let model_path' :=
    ("./save/newSupCon/" ++ Argparse.dataset ns ++ "_models")%string in
  let tb_path' :=
    ("./save/newSupCon/" ++ Argparse.dataset ns ++ "_tensorboard")%string in
  let iterations := split_comma (Argparse.lr_decay_epochs ns) in
  do decay_epochs <- lift (int_list iterations);
  let name0 := base_model_name ns in
  let name1 :=
    if Argparse.cosine ns then (name0 ++ "_cosine")%string else name0 in
  do wu <- lift (warmup_setup ns name1);
  let '(warm', name2, from, wepochs, to) := wu in
  let tb_folder' := path_join tb_path' name2 in
  do _ <- ensure_dir tb_folder';
  let save_folder' := path_join model_path' name2 in
  do _ <- ensure_dir save_folder';
  ret {| print_freq := Argparse.print_freq ns;
         save_freq := Argparse.save_freq ns;
         batch_size := Argparse.batch_size ns;
         num_workers := Argparse.num_workers ns;
         epochs := Argparse.epochs ns;
         learning_rate := Argparse.learning_rate ns;
         lr_decay_epochs := decay_epochs;
         lr_decay_rate := Argparse.lr_decay_rate ns;
         weight_decay := Argparse.weight_decay ns;
         momentum := Argparse.momentum ns;
         model := Argparse.model ns;
         dataset := Argparse.dataset ns;
         mean := Argparse.mean ns;
         std := Argparse.std ns;
         data_folder := data_folder';
         size := Argparse.size ns;
         method := Argparse.method ns;
         temp := Argparse.temp ns;
         cosine := Argparse.cosine ns;
         syncBN := Argparse.syncBN ns;
         warm := warm';
         trial := Argparse.trial ns;
         model_path := model_path';
         tb_path := tb_path';
         model_name := name2;
         warmup_from := from;
         warm_epochs := wepochs;
         warmup_to := to;
         tb_folder := tb_folder';
         save_folder := save_folder' |}.

(** *** set_loader *)

Definition set_loader (opt : options) : M loader :=
  do _ <- (if String.eqb (dataset opt) "sp"
           then ret tt
           else raise (ValueError
                         ("dataset not supported: " ++ dataset opt)));
  do _ <- (if String.eqb (dataset opt) "sp"
           then emit (NewDataset (data_folder opt))
           else ret tt);
  let train_loader := {| data_dir := data_folder opt;
                         loader_batch_size := batch_size opt;
                         loader_num_workers := num_workers opt |} in
  do _ <- emit (NewDataLoader train_loader);
  ret train_loader.

(** *** set_model *)

(** The local variable [model] of [set_model]: bound or not. *)
Definition read_model (m : option model_obj) : M model_obj :=
  match m with
  | Some v => ret v
  | None => raise (UnboundLocalError "model")
  end.

Definition bare (n : network) : model_obj :=
  {| net := n; data_parallel := false; on_cuda := false |}.

Definition construct (n : network) : M (option model_obj) :=
  do _ <- emit (NewModel n); ret (Some (bare n)).

(** Lines 119-129, the choice of the encoder. *)
Definition select_model (opt : options) : M (option model_obj) :=
  if String.eqb (dataset opt) "sp" then
    if String.eqb (model opt) "CustomCNN" then construct CustomCNN
    else if String.eqb (model opt) "CustomCNNmini"
    then construct CustomCNNmini
    else if String.eqb (model opt) "CustomCNNminidrop"
    then construct CustomCNNminidrop
    else do _ <- emit (Print ("没找到模型" ++ model opt)); ret None
  else construct (SupConResNet (model opt)).

Definition set_model (opt : options) : M (model_obj * criterion_obj) :=
  do m <- select_model opt;
  do _ <- emit (NewCriterion (temp opt));
  let criterion := {| temperature := temp opt;
                      criterion_on_cuda := false |} in
  (* [apex] is never imported *)
  do m <- (if syncBN opt then raise (NameError "apex") else ret m);
  do mc <- (if cuda_is_available rt
            then
              do m <- (if cuda_device_count rt >? 1
                       then do v <- read_model m;
                            ret (Some {| net := net v;
                                         data_parallel := true;
                                         on_cuda := on_cuda v |})
                       else ret m);
              do v <- read_model m;
              ret (Some {| net := net v;
                           data_parallel := data_parallel v;
                           on_cuda := true |},
                   {| temperature := temperature criterion;
                      criterion_on_cuda := true |})
            else ret (m, criterion));
  let '(m, criterion) := mc in
  do v <- read_model m;
  ret (v, criterion).

(** *** The collaborators *)

(** What the script calls and does not define: the data pipeline
    ([rf_dataset.SPDataset] under a [DataLoader]), the encoder's forward
    pass, the loss of [losses.SupConLoss], and the optimizer and
    schedule helpers of [util]. *)
Record collab : Type := {
  (* the batches that iterating [train_loader] yields during an epoch *)
  batches_of : loader -> Z -> list batch;
  (* [model(images)] *)
  forward : trainer -> list image -> list embedding;
  (* [criterion(features, labels=None)], read with [loss.item()] *)
  criterion_call :
    criterion_obj -> list (list embedding) -> option (list Z) -> float;
  (* [set_optimizer(opt, model)] *)
  set_optimizer : options -> model_obj -> trainer;
  (* [optimizer.zero_grad(); loss.backward(); optimizer.step()] *)
  backward_step : list image -> option (list Z) -> trainer -> trainer;
  adjust_learning_rate : options -> trainer -> Z -> trainer;
  warmup_learning_rate : options -> Z -> nat -> nat -> trainer -> trainer;
  (* [AverageMeter().avg] before any update *)
  avg_before_update : result float
}.

Section WithCollaborators.
Variable cb : collab.

(** *** train *)

(** Lines 156-166: one forward pass over both views, split back and
    paired as [[bsz, 2, D]]. *)
Definition paired_features (t : trainer) (images : list image * list image)
           (labels : list Z) : result (list (list embedding)) :=
  let images := cat (fst images) (snd images) in
  let bsz := List.length labels in
  let features := forward cb t images in
  try (f1, f2) <- split features bsz bsz;
  cat1 (unsqueeze1 f1) (unsqueeze1 f2).

(** Lines 167-170.  With any other method neither branch binds
    [loss], and line 172 reads it. *)
Definition compute_loss (opt : options) (criterion : criterion_obj)
           (features : list (list embedding)) (labels : list Z)
  : result (float * option (list Z)) :=
  if String.eqb (method opt) "SupCon"
  then Ok (criterion_call cb criterion features (Some labels), Some labels)
  else if String.eqb (method opt) "SimCLR"
  then Ok (criterion_call cb criterion features None, None)
  else Raise (UnboundLocalError "loss").

Record loop_state : Type := {
  st_trainer : trainer;
  st_meters : meters;
  st_end : float
}.

(** The body of the loop of [train], lines 154-187. *)
Definition train_step (opt : options) (criterion : criterion_obj)
           (epoch : Z) (total : nat) (idx : nat) (b : batch)
           (st : loop_state) : M loop_state :=
  let '(images, labels) := b in
  let ms := st_meters st in
  do _ <- emit (Fetch epoch idx);
  do now <- time_now;
  do data_time' <- lift (update (data_time ms) (now - st_end st) 1);
  let bsz := Z.of_nat (List.length labels) in
  let t1 := warmup_learning_rate cb opt epoch idx total (st_trainer st) in
  do features <- lift (paired_features t1 images labels);
  do (loss, used_labels) <-
     lift (compute_loss opt criterion features labels);
  do losses' <- lift (update (losses ms) loss bsz);
  let t2 :=
    backward_step cb (cat (fst images) (snd images)) used_labels t1 in
  do _ <- emit (OptimizerStep epoch idx);
  do now <- time_now;
  do batch_time' <- lift (update (batch_time ms) (now - st_end st) 1);
  do end' <- time_now;
  let ms' := {| batch_time := batch_time';
                data_time := data_time';
                losses := losses' |} in
  do r <- lift (py_mod (Z.of_nat idx + 1) (print_freq opt));
  do _ <- (if r =? 0
           then emit (PrintProgress epoch (S idx) total ms')
           else ret tt);
  ret {| st_trainer := t2; st_meters := ms'; st_end := end' |}.

Fixpoint train_loop (opt : options) (criterion : criterion_obj)
         (epoch : Z) (total : nat) (bs : list batch) (idx : nat)
         (st : loop_state) : M loop_state :=
  match bs with
  | [] => ret st
  | b :: rest =>
      do st' <- train_step opt criterion epoch total idx b st;
      train_loop opt criterion epoch total rest (S idx) st'
  end.

Definition fresh_meters : meters :=
  {| batch_time := new_meter;
     data_time := new_meter;
     losses := new_meter |}.

(** [train] returns [losses.avg]; the trainer it leaves behind is
    returned with it, and so are the meters it is about to drop. *)
Definition train (train_loader : loader) (criterion : criterion_obj)
           (t : trainer) (epoch : Z) (opt : options)
  : M (float * trainer * meters) :=
  let bs := batches_of cb train_loader epoch in
  do end_ <- time_now;
  do st <- train_loop opt criterion epoch (List.length bs) bs 0
             {| st_trainer := t;
                st_meters := fresh_meters;
                st_end := end_ |};
  do a <- lift (avg (avg_before_update cb) (losses (st_meters st)));
  ret (a, st_trainer st, st_meters st).

(** *** main *)

(** [range(1, n + 1)]. *)
Definition range1 (n : Z) : list Z :=
  map Z.of_nat (seq 1 (Z.to_nat n)).

Definition ckpt_file (opt : options) (epoch : Z) : string :=
  path_join (save_folder opt)
            ("ckpt_epoch_" ++ str_of_int epoch ++ ".pth")%string.

Definition last_file (opt : options) : string :=
  path_join (save_folder opt) "last.pth".

(** The body of the epoch loop, lines 204-217. *)
Definition epoch_body (opt : options) (train_loader : loader)
           (criterion : criterion_obj) (epoch : Z) (t : trainer)
  : M trainer :=
  do _ <- emit (AdjustLearningRate epoch);
  let t := adjust_learning_rate cb opt t epoch in
  do time1 <- time_now;
  do (loss, t, _) <- train train_loader criterion t epoch opt;
  do time2 <- time_now;
  do _ <- emit (PrintEpoch epoch (time2 - time1));
  do _ <- emit (LogValue "loss" loss epoch);
  do _ <- emit (LogValue "learning_rate" (lr t) epoch);
  do r <- lift (py_mod epoch (save_freq opt));
  do _ <- (if r =? 0
           then emit (SaveModel (ckpt_file opt epoch) epoch)
           else ret tt);
  ret t.

Fixpoint epoch_loop (opt : options) (train_loader : loader)
         (criterion : criterion_obj) (es : list Z) (t : trainer)
  : M trainer :=
  match es with
  | [] => ret t
  | epoch :: rest =>
      do t' <- epoch_body opt train_loader criterion epoch t;
      epoch_loop opt train_loader criterion rest t'
  end.

Definition main (argv : list arg) : M unit :=
  do opt <- parse_option argv;
  do train_loader <- set_loader opt;
  do (model, criterion) <- set_model opt;
  let optimizer := set_optimizer cb opt model in
  do _ <- emit (NewLogger (tb_folder opt));
  do _ <- epoch_loop opt train_loader criterion
            (range1 (epochs opt)) optimizer;
  do _ <- emit (SaveModel (last_file opt) (epochs opt));
  ret tt.

End WithCollaborators.
End WithRuntime.

End Main.

Import Main.

(* ===================================================================== *)
(** ** A runtime and collaborators to run the script on *)
(* ===================================================================== *)

Module Sample.

(** [float(s)] on short plain decimals [ddd] and [ddd.ddd]: at most 15
    digits, so that numerator and power of ten are exact and one division
    rounds correctly.  Other strings are not read by this runtime. *)
Fixpoint split_dot (s : list ascii) (seen : list ascii)
  : list ascii * option (list ascii) :=
  match s with
  | [] => (List.rev seen, None)
  | c :: s' =>
      if Ascii.eqb c "."
      then (List.rev seen, Some s')
      else split_dot s' (c :: seen)
  end.

Definition float_of_str (s : string) : option float :=
  let '(i, f) := split_dot (list_ascii_of_string s) [] in
  let f := match f with Some f => f | None => [] end in
  if (15 <? List.length (i ++ f))%nat then None
  else
    match digits_value (i ++ f) 0 false with
    | Some n =>
        Some (float_of_Z n / float_of_Z (10 ^ Z.of_nat (List.length f)))%float
    | None => None
    end.

(** The floats whose [str] the sample runs need. *)
Definition str_of_float (x : float) : string :=
  if PrimFloat.eqb x 0.05 then "0.05"
  else if PrimFloat.eqb x 0.0001 then "0.0001"
  else if PrimFloat.eqb x 0.07 then "0.07"
  else if PrimFloat.eqb x 0.5 then "0.5"
  else "x".

(** Stand-ins for [x ** 3] and [math.cos]: repeated multiplication and a
    Taylor polynomial.  They are close to the C library's values, not
    bit-for-bit equal to them. *)
Definition float_pow (x : float) (n : Z) : option float :=
  if n =? 3 then Some (x * x * x)%float else None.

Definition math_cos (x : float) : option float :=
  let x2 := (x * x)%float in
  Some (1 - x2 / 2 + x2 * x2 / 24 - x2 * x2 * x2 / 720)%float.

Definition rt : runtime := {|
  Py.float_of_str := float_of_str;
  Py.str_of_float := str_of_float;
  Py.float_pow := float_pow;
  Py.math_cos := math_cos;
  time_time := fun k => float_of_Z (Z.of_nat k);
  cuda_is_available := false;
  cuda_device_count := 0
|}.

(** A one-parameter encoder that scales its input, a loss that reads the
    first coordinate of the first pair, and an optimizer step that halves
    the parameter; every pass over the loader yields one batch of one
    sample. *)
Definition scale (t : trainer) : float :=
  match params t with p :: _ => p | [] => 0%float end.

Definition cb : collab := {|
  batches_of := fun _ _ => [(([[1%float]], [[1%float]]), [0])];
  forward := fun t images => map (map (fun x => (x * scale t)%float)) images;
  criterion_call := fun _ features _ =>
    match features with
    | ((x :: _) :: _) :: _ => x
    | _ => 0%float
    end;
  set_optimizer := fun opt m =>
    {| the_model := m; params := [4%float]; lr := learning_rate opt |};
  backward_step := fun _ _ t =>
    {| the_model := the_model t;
       params := map (fun p => (p / 2)%float) (params t);
       lr := lr t |};
  adjust_learning_rate := fun _ t _ => t;
  warmup_learning_rate := fun _ _ _ _ t => t;
  avg_before_update := Ok 0%float
|}.

Definition w0 : world := {| dirs := []; ticks := 0; log := [] |}.

End Sample.

(* ===================================================================== *)
(** ** Vocabulary of the properties *)
(* ===================================================================== *)

(** The Configuration invariant of the specification: the decay
    milestones are strictly increasing and lie within [[1, epochs]]. *)
Fixpoint strictly_increasing (l : list Z) : bool :=
  match l with
  | a :: (b :: _) as rest => (a <? b) && strictly_increasing rest
  | _ => true
  end.

Definition milestones_ok (opt : options) : bool :=
  strictly_increasing (lr_decay_epochs opt)
  && forallb (fun m => (1 <=? m) && (m <=? epochs opt)) (lr_decay_epochs opt).

(** Events that belong to parsing the options: creating the output
    directories.  Everything else in a log comes from the data pipeline,
    the model, or the epoch loop. *)
Definition is_makedirs (e : event) : bool :=
  match e with
  | Makedirs _ => true
  | _ => false
  end.

(** The encoder names that [set_model] knows for the dataset [sp]. *)
Definition registry : list string :=
  ["CustomCNN"; "CustomCNNmini"; "CustomCNNminidrop"].

(** A world with more events in its log. *)
Definition logged (w : world) (es : list event) : world :=
  {| dirs := dirs w; ticks := ticks w; log := log w ++ es |}.

(** Two equally long lists of rows, paired row by row: the [[B, 2, D]]
    tensor whose row [i] holds row [i] of each. *)
Definition pairs {A : Type} (f1 f2 : list A) : list (list A) :=
  map (fun p => [fst p; snd p]) (combine f1 f2).

(** The checkpoints a log records: file and epoch of every
    [save_model], in the order written. *)
Definition saves (l : list event) : list (string * Z) :=
  flat_map (fun e => match e with
                     | SaveModel file epoch => [(file, epoch)]
                     | _ => []
                     end) l.

(** The course of the epoch loop in a log: where each epoch starts, each
    optimizer step, and each checkpoint. *)
Definition on_timeline (e : event) : bool :=
  match e with
  | AdjustLearningRate _ | OptimizerStep _ _ | SaveModel _ _ => true
  | _ => false
  end.

Definition timeline (l : list event) : list event := filter on_timeline l.

(** The loss values a log reports to the logger, with their epochs. *)
Definition reported_losses (l : list event) : list (Z * float) :=
  flat_map (fun e => match e with
                     | LogValue name value epoch =>
                         if String.eqb name "loss" then [(epoch, value)]
                         else []
                     | _ => []
                     end) l.

(** A meter after a sequence of updates [(value, weight)]. *)
Fixpoint updates (m : AverageMeter) (us : list (float * Z))
  : result AverageMeter :=
  match us with
  | [] => Ok m
  | (val, n) :: rest => try m' <- update m val n; updates m' rest
  end.

(** The sample counts of a list of batches. *)
Definition batch_sizes (bs : list batch) : list Z :=
  map (fun b : batch => Z.of_nat (List.length (snd b))) bs.

(** The loader that [set_loader] builds for [opt]. *)
Definition loader_of (opt : options) : loader :=
  {| data_dir := data_folder opt;
     loader_batch_size := batch_size opt;
     loader_num_workers := num_workers opt |}.

(** *** The specification's reading of the meters *)

(** The data model of the specification keeps one accumulator per metric
    for the whole run, reset at process start only.  [LiveMeters] is the
    driver read that way: [train_live] receives the meters and hands them
    on to the next epoch.  It differs from [Main] in the meters alone. *)
Module LiveMeters.
Section WithCollaborators.
Variable rt : runtime.
Variable cb : collab.




End WithCollaborators.
End LiveMeters.

(** The events of the loop of [train]. *)
Definition in_train (e : event) : bool :=
  match e with
  | Fetch _ _ | OptimizerStep _ _ | PrintProgress _ _ _ _ => true
  | _ => false
  end.

(** The course of one completed epoch: it starts, takes one step per
    batch of the loader, and ends with a checkpoint when one is due. *)
Definition epoch_timeline (cb : collab) (opt : options) (epoch : Z)
  : list event :=
  AdjustLearningRate epoch
    :: map (OptimizerStep epoch)
           (seq 0 (List.length (batches_of cb (loader_of opt) epoch)))
    ++ (if epoch mod save_freq opt =? 0
        then [SaveModel (ckpt_file opt epoch) epoch]
        else []).


(* ===================================================================== *)
(** ** Vocabulary of the further properties *)
(* ===================================================================== *)

From Stdlib Require DecimalPos DecimalZ.

(** The model name before the suffixes, from the attributes of [opt]
    (line 64). *)
Definition name_stem (rt : runtime) (opt : options) : string :=
  ("tran" ++ method opt ++ "_" ++ dataset opt ++ "_" ++ model opt
     ++ "_lr_" ++ str_of_float rt (learning_rate opt)
     ++ "_decay_" ++ str_of_float rt (weight_decay opt)
     ++ "_bsz_" ++ str_of_int (batch_size opt)
     ++ "_temp_" ++ str_of_float rt (temp opt)
     ++ "_trial_" ++ trial opt)%string.


(** The registry of [set_model] for the dataset [sp]: the encoder a
    name selects. *)
Definition network_named (name : string) : option network :=
  if String.eqb name "CustomCNN" then Some CustomCNN
  else if String.eqb name "CustomCNNmini" then Some CustomCNNmini
  else if String.eqb name "CustomCNNminidrop" then Some CustomCNNminidrop
  else None.

(** The events of the epoch loop of [main]. *)
Definition in_epoch_loop (e : event) : bool :=
  match e with
  | AdjustLearningRate _ | Fetch _ _ | OptimizerStep _ _
  | PrintProgress _ _ _ _ | PrintEpoch _ _ | LogValue _ _ _
  | SaveModel _ _ => true
  | _ => false
  end.

(** The encoders a log records as built. *)
Definition models_built (l : list event) : list network :=
  flat_map (fun e => match e with NewModel n => [n] | _ => [] end) l.

(** An event with the meters of a progress line left out. *)
Definition without_meters (e : event) : event :=
  match e with
  | PrintProgress epoch step total _ =>
      PrintProgress epoch step total fresh_meters
  | _ => e
  end.

(** What step [idx] of a completed epoch logs: the batch is fetched, the
    optimizer steps, and a progress line follows when [idx + 1] is a
    multiple of [print_freq]. *)
Definition step_events (opt : options) (epoch : Z) (total idx : nat)
  : list event :=
  [Fetch epoch idx; OptimizerStep epoch idx]
    ++ (if (Z.of_nat idx + 1) mod print_freq opt =? 0
        then [PrintProgress epoch (S idx) total fresh_meters]
        else []).

(** The labels that reach the criterion and the backward pass. *)
Definition labels_used (opt : options) (labels : list Z)
  : option (list Z) :=
  if String.eqb (method opt) "SupCon" then Some labels else None.

(** The trainer after one step on batch [b], and after the steps on a
    list of batches numbered from [idx]. *)
Definition step_trainer (cb : collab) (opt : options) (epoch : Z)
           (total idx : nat) (b : batch) (t : trainer) : trainer :=
  backward_step cb (cat (fst (fst b)) (snd (fst b)))
                (labels_used opt (snd b))
                (warmup_learning_rate cb opt epoch idx total t).

Fixpoint run_steps (cb : collab) (opt : options) (epoch : Z) (total : nat)
         (bs : list batch) (idx : nat) (t : trainer) : trainer :=
  match bs with
  | [] => t
  | b :: rest =>
      run_steps cb opt epoch total rest (S idx)
                (step_trainer cb opt epoch total idx b t)
  end.

(** The events before the epoch loop: option parsing, the loader, the
    model and the logger. *)
Definition in_setup (e : event) : bool :=
  match e with
  | Makedirs _ | Print _ | NewDataset _ | NewDataLoader _ | NewModel _
  | NewCriterion _ | NewLogger _ => true
  | _ => false
  end.

(** The series a log hands to the logger: name and epoch of every
    value, and the learning rates among them. *)
Definition logged_series (l : list event) : list (string * Z) :=
  flat_map (fun e => match e with
                     | LogValue name _ epoch => [(name, epoch)]
                     | _ => []
                     end) l.

Definition reported_rates (l : list event) : list (Z * float) :=
  flat_map (fun e => match e with
                     | LogValue name value epoch =>
                         if String.eqb name "learning_rate"
                         then [(epoch, value)]
                         else []
                     | _ => []
                     end) l.

(** The trainer after epoch [epoch], and the trainers after each of a
    list of epochs. *)
Definition epoch_trainer (cb : collab) (opt : options) (epoch : Z)
           (t : trainer) : trainer :=
  let bs := batches_of cb (loader_of opt) epoch in
  run_steps cb opt epoch (List.length bs) bs 0
            (adjust_learning_rate cb opt t epoch).

Fixpoint trainers (cb : collab) (opt : options) (es : list Z) (t : trainer)
  : list (Z * trainer) :=
  match es with
  | [] => []
  | e :: rest =>
      let t' := epoch_trainer cb opt e t in
      (e, t') :: trainers cb opt rest t'
  end.

(** The model that [set_model] returns for the encoder [n]. *)
Definition placed (rt : runtime) (n : network) : model_obj :=
  {| net := n;
     data_parallel := cuda_is_available rt && (cuda_device_count rt >? 1);
     on_cuda := cuda_is_available rt |}.

(** [','.join(pieces)]. *)
Fixpoint join_comma (pieces : list string) : string :=
  match pieces with
  | [] => ""
  | [p] => p
  | p :: rest => (p ++ "," ++ join_comma rest)%string
  end.

(** A string without a comma. *)
Fixpoint comma_free (s : string) : bool :=
  match s with
  | EmptyString => true
  | String c s' => negb (Ascii.eqb c ",") && comma_free s'
  end.

(** The characters of a decimal numeral. *)
Definition numeral_chars (d : Decimal.uint) : list ascii :=
  list_ascii_of_string (DecimalString.NilEmpty.string_of_uint d).

(* ===================================================================== *)
(** ** The model at work *)
(* ===================================================================== *)

Example int_of_str_ex1 : int_of_str "700" = Some 700.
Proof. reflexivity. Qed.
Example int_of_str_ex2 : int_of_str " -1_000 " = Some (-1000).
Proof. reflexivity. Qed.
Example int_of_str_ex3 : int_of_str "1__0" = None.
Proof. reflexivity. Qed.
Example int_of_str_ex4 : int_of_str "" = None.
Proof. reflexivity. Qed.
Example split_comma_ex : split_comma "700,800,900" = ["700"; "800"; "900"].
Proof. reflexivity. Qed.
Example split_comma_ex2 : split_comma ",a," = [""; "a"; ""].
Proof. reflexivity. Qed.
Example str_of_int_ex : str_of_int 12 = "12" /\ str_of_int (-3) = "-3" /\ str_of_int 0 = "0".
Proof. repeat split; reflexivity. Qed.
Example path_join_ex : path_join "./save/x" "last.pth" = "./save/x/last.pth".
Proof. reflexivity. Qed.
Example float_of_int_ex : float_of_int 4 = Ok 4%float.
Proof. vm_compute. reflexivity. Qed.
Example truediv_ex : truediv_int 6 4 = Ok 1.5%float.
Proof. vm_compute. reflexivity. Qed.
Example truediv_zero : truediv_int 6 0 = Raise ZeroDivisionError.
Proof. vm_compute. reflexivity. Qed.

Example sample_float_of_str :
  Sample.float_of_str "0.05" = Some 0.05%float /\
  Sample.float_of_str "12" = Some 12%float /\
  Sample.float_of_str "abc" = None.
Proof. repeat split; vm_compute; reflexivity. Qed.

Example parse_option_defaults :
  exists opt w,
    parse_option Sample.rt [] Sample.w0 = (Ok opt, w) /\
    lr_decay_epochs opt = [700; 800; 900] /\
    warm opt = false /\
    save_folder opt =
      "./save/newSupCon/sp_models/tranSupCon_sp_CustomCNN_lr_0.05_decay_0.0001_bsz_256_temp_0.07_trial_0" /\
    log w = [Makedirs (tb_folder opt); Makedirs (save_folder opt)].
Proof. vm_compute. do 2 eexists. repeat split. Qed.

Example main_two_epochs :
  exists w,
    main Sample.rt Sample.cb
         [Argparse.Opt "epochs" "2"; Argparse.Opt "save_freq" "1"]
         Sample.w0 = (Ok tt, w) /\
    filter (fun e => match e with LogValue _ _ _ => true | _ => false end)
           (log w)
    = [LogValue "loss" 4 1; LogValue "learning_rate" 0.05 1;
       LogValue "loss" 2 2; LogValue "learning_rate" 0.05 2].
Proof. vm_compute. eexists. split; reflexivity. Qed.

(* ===================================================================== *)
(** ** Facts about the argument parser *)
(* ===================================================================== *)

Section ArgparseFacts.
Variable rt : runtime.

Lemma first_reject_none (argv : list Argparse.arg) :
  Argparse.first_reject rt argv = None ->
  forall a, In a argv -> Argparse.check rt a <> Argparse.Reject.
Proof.
  induction argv as [|b rest IH]; intros H a Ha; [destruct Ha|].
  simpl in H. destruct (Argparse.check rt b) eqn:Hb; try discriminate;
    destruct Ha as [<-|Ha]; try congruence; now apply IH.
Qed.

Lemma unrecognized_nil (argv : list Argparse.arg) :
  Argparse.unrecognized rt argv = [] ->
  forall a, In a argv -> Argparse.check rt a <> Argparse.Unrecognized.
Proof.
  unfold Argparse.unrecognized. intros H a Ha Hc.
  assert (Hin : In a (filter (fun a => match Argparse.check rt a with
                                       | Argparse.Unrecognized => true
                                       | _ => false
                                       end) argv)).
  { apply filter_In. split; [assumption|]. now rewrite Hc. }
  rewrite H in Hin. destruct Hin.
Qed.

(** A command line that [parse_args] accepts has every argument
    stored. *)
Lemma parse_args_accepts (argv : list Argparse.arg) ns :
  Argparse.parse_args rt argv = Ok ns ->
  forall a, In a argv -> Argparse.check rt a = Argparse.Accept.
Proof.
  unfold Argparse.parse_args. intros H a Ha.
  destruct (Argparse.first_reject rt argv) eqn:Hr; [discriminate|].
  destruct (Argparse.unrecognized rt argv) eqn:Hu; [|discriminate].
  pose proof (first_reject_none _ Hr a Ha).
  pose proof (unrecognized_nil _ Hu a Ha).
  destruct (Argparse.check rt a); congruence.
Qed.

Lemma last_value_In name (argv : list Argparse.arg) v :
  Argparse.last_value name argv = Some v ->
  In (Argparse.Opt name v) argv.
Proof.
  induction argv as [|a rest IH]; simpl; [discriminate|].
  destruct (Argparse.last_value name rest) as [v'|].
  - intros [= ->]. right. now apply IH.
  - destruct a as [n x|n]; [|discriminate].
    destruct (String.eqb_spec n name) as [->|]; [|discriminate].
    intros [= ->]. now left.
Qed.

Lemma parse_args_fields (argv : list Argparse.arg) ns :
  Argparse.parse_args rt argv = Ok ns ->
  Argparse.dataset ns = Argparse.str_value "dataset" "sp" argv /\
  Argparse.method ns = Argparse.str_value "method" "SupCon" argv /\
  Argparse.warm ns = Argparse.has_flag "warm" argv /\
  Argparse.lr_decay_epochs ns =
    Argparse.str_value "lr_decay_epochs" "700,800,900" argv /\
  Argparse.data_folder ns = Argparse.last_value "data_folder" argv /\
  Argparse.mean ns = Argparse.last_value "mean" argv /\
  Argparse.std ns = Argparse.last_value "std" argv.
Proof.
  unfold Argparse.parse_args. intros H.
  destruct (Argparse.first_reject rt argv); [discriminate|].
  destruct (Argparse.unrecognized rt argv); [|discriminate].
  injection H as <-. cbn. repeat split.
Qed.


Lemma parse_args_method (argv : list Argparse.arg) ns :
  Argparse.parse_args rt argv = Ok ns ->
  Argparse.method ns = "SupCon" \/ Argparse.method ns = "SimCLR".
Proof.
  intros H. destruct (parse_args_fields _ _ H) as (_ & -> & _).
  unfold Argparse.str_value.
  destruct (Argparse.last_value "method" argv) as [v|] eqn:Hl;
    [|now left].
  pose proof (parse_args_accepts _ _ H _ (last_value_In _ _ _ Hl)) as Hc.
  cbn in Hc.
  destruct (String.eqb_spec v "SupCon") as [->|]; [now left|].
  destruct (String.eqb_spec v "SimCLR") as [->|]; [now right|].
  discriminate Hc.
Qed.
End ArgparseFacts.

(* ===================================================================== *)
(** ** Facts about [parse_option] *)
(* ===================================================================== *)

Section ParseOptionFacts.
Variable rt : runtime.

Lemma ensure_dir_ok (p : string) (w : world) :
  exists w', ensure_dir p w = (Ok tt, w') /\
             (log w' = log w \/ log w' = log w ++ [Makedirs p]) /\
             ticks w' = ticks w.
Proof.
  unfold ensure_dir, bind, isdir, ret, makedirs.
  destruct (Argparse.mem p (dirs w)); eexists; split; try reflexivity;
    cbn; auto.
Qed.

(** What a successful [parse_option] has computed. *)
Lemma parse_option_inv (argv : list Argparse.arg) w opt w' :
  parse_option rt argv w = (Ok opt, w') ->
  exists ns name,
    Argparse.parse_args rt argv = Ok ns /\
    check_required ns = Ok tt /\
    int_list (split_comma (Argparse.lr_decay_epochs ns))
      = Ok (lr_decay_epochs opt) /\
    warmup_setup rt ns name
      = Ok (warm opt, model_name opt, warmup_from opt, warm_epochs opt,
            warmup_to opt) /\
    method opt = Argparse.method ns /\
    dataset opt = Argparse.dataset ns /\
    batch_size opt = Argparse.batch_size ns /\
    epochs opt = Argparse.epochs ns /\
    learning_rate opt = Argparse.learning_rate ns /\
    lr_decay_rate opt = Argparse.lr_decay_rate ns /\
    cosine opt = Argparse.cosine ns.
Proof.
  unfold parse_option, bind, lift. intros H.
  destruct (Argparse.parse_args rt argv) as [ns|]; [|discriminate].
  destruct (check_required ns) as [[]|] eqn:Hreq; [|discriminate].
  destruct (int_list _) as [l|] eqn:Hl; [|discriminate].
  destruct (warmup_setup rt ns _) as [[[[[wm nm] fr] we] to]|] eqn:Hw;
    [|discriminate].
  destruct (ensure_dir_ok (path_join ("./save/newSupCon/" ++
              Argparse.dataset ns ++ "_tensorboard")%string nm) w)
    as (w1 & E1 & _).
  rewrite E1 in H.
  destruct (ensure_dir_ok (path_join ("./save/newSupCon/" ++
              Argparse.dataset ns ++ "_models")%string nm) w1)
    as (w2 & E2 & _).
  rewrite E2 in H. unfold ret in H. injection H as <- <-. cbn.
  exists ns. eexists. repeat split; first [eassumption | reflexivity].
Qed.
End ParseOptionFacts.

(* ===================================================================== *)
(** ** Warmup settings (lines 71-82) *)
(* ===================================================================== *)

Section Warmup.
Variable rt : runtime.

Lemma warmup_setup_inv ns name wm nm fr we to :
  warmup_setup rt ns name = Ok (wm, nm, fr, we, to) ->
  wm = (if Argparse.batch_size ns >? 256 then true else Argparse.warm ns) /\
  (wm = true ->
   fr = Some 0.01%float /\ we = Some 10 /\
   exists v, to = Some v /\
     (if Argparse.cosine ns
      then cosine_warmup_to rt (Argparse.learning_rate ns)
                            (Argparse.lr_decay_rate ns) 10
                            (Argparse.epochs ns) = Ok v
      else v = Argparse.learning_rate ns)) /\
  (wm = false -> fr = None /\ we = None /\ to = None).
Proof.
  unfold warmup_setup.
  destruct (if Argparse.batch_size ns >? 256 then true else Argparse.warm ns).
  - destruct (Argparse.cosine ns).
    + destruct (cosine_warmup_to rt _ _ _ _) as [v|] eqn:Hc; [|discriminate].
      cbn. intros [= <- <- <- <- <-].
      repeat split; try discriminate. now exists v.
    + cbn. intros [= <- <- <- <- <-].
      repeat split; try discriminate. now eexists.
  - intros [= <- <- <- <- <-]. repeat split; discriminate.
Qed.

Lemma cosine_warmup_to_inv base rate e v :
  cosine_warmup_to rt base rate 10 e = Ok v ->
  exists p x c,
    float_pow rt rate 3 = Some p /\
    truediv_int (math_pi * 10)%float e = Ok x /\
    math_cos rt x = Some c /\
    v = (base * p + (base - base * p) * (1 + c) / 2)%float.
Proof.
  unfold cosine_warmup_to.
  destruct (float_pow rt rate 3) as [p|] eqn:Hp; [|discriminate].
  cbn [rbind]. change (float_of_int 10) with (Ok 10%float). cbn [rbind].
  destruct (truediv_int _ e) as [x|] eqn:Hx; [|discriminate]. cbn [rbind].
  destruct (math_cos rt x) as [c|] eqn:Hc; [|discriminate]. cbn [rbind].
  intros [= <-]. now exists p, x, c.
Qed.

(** C7.  After option parsing the warmup flag is on whenever the batch
    size exceeds 256, whether or not [--warm] was given; up to 256 it is
    on exactly when [--warm] was given. *)
Theorem warm_forced_above_256 (argv : list Argparse.arg) w opt w' :
  parse_option rt argv w = (Ok opt, w') ->
  (batch_size opt > 256 -> warm opt = true) /\
  (batch_size opt <= 256 -> warm opt = Argparse.has_flag "warm" argv).
Proof.
  intros H.
  destruct (parse_option_inv rt _ _ _ _ H)
    as (ns & name & Hp & _ & _ & Hw & _ & _ & Hb & _).
  destruct (warmup_setup_inv _ _ _ _ _ _ _ Hw) as (-> & _).
  destruct (parse_args_fields rt _ _ Hp) as (_ & _ & <- & _).
  rewrite Hb. split; intros Hs.
  - apply Z.gt_lt, Z.gtb_lt in Hs. now rewrite Hs.
  - destruct (Argparse.batch_size ns >? 256) eqn:E; [|reflexivity].
    apply Z.gtb_lt in E. lia.
Qed.

(** C8.  Whenever warmup is on, option parsing has set the warmup start
    to 0.01 and the warmup window to 10 epochs, and the warmup end to the
    base rate without cosine annealing and, with it, to
    [eta_min + (base - eta_min) * (1 + cos(pi * 10 / epochs)) / 2] where
    [eta_min = base * decay_rate ** 3]. *)
Theorem warmup_to_precomputed (argv : list Argparse.arg) w opt w' :
  parse_option rt argv w = (Ok opt, w') ->
  warm opt = true ->
  warmup_from opt = Some 0.01%float /\
  warm_epochs opt = Some 10 /\
  (cosine opt = false -> warmup_to opt = Some (learning_rate opt)) /\
  (cosine opt = true ->
   exists p x c,
     float_pow rt (lr_decay_rate opt) 3 = Some p /\
     truediv_int (math_pi * 10)%float (epochs opt) = Ok x /\
     math_cos rt x = Some c /\
     let eta_min := (learning_rate opt * p)%float in
     warmup_to opt =
       Some (eta_min + (learning_rate opt - eta_min) * (1 + c) / 2)%float).
Proof.
  intros H Hwarm.
  destruct (parse_option_inv rt _ _ _ _ H)
    as (ns & name & _ & _ & _ & Hw & _ & _ & _ & He & Hl & Hr & Hc).
  destruct (warmup_setup_inv _ _ _ _ _ _ _ Hw) as (_ & Hon & _).
  destruct (Hon Hwarm) as (-> & -> & v & -> & Hv).
  rewrite Hc, He, Hl, Hr. repeat split.
  - intros E. rewrite E in Hv. now subst v.
  - intros E. rewrite E in Hv.
    destruct (cosine_warmup_to_inv _ _ _ _ Hv) as (p & x & c & ? & ? & ? & ->).
    now exists p, x, c.
Qed.
End Warmup.

Lemma warm_forced_above_256_witness :
  exists opt w',
    parse_option Sample.rt [Argparse.Opt "batch_size" "512"] Sample.w0
      = (Ok opt, w') /\
    batch_size opt = 512 /\ warm opt = true.
Proof.
  destruct (parse_option Sample.rt [Argparse.Opt "batch_size" "512"] Sample.w0)
    as [r w'] eqn:E.
  assert (Hr : exists opt, r = Ok opt /\ batch_size opt = 512).
  { vm_compute in E. injection E as <- _. eexists. split; reflexivity. }
  destruct Hr as (opt & -> & Hb). exists opt, w'.
  split; [reflexivity|]. split; [exact Hb|].
  apply (warm_forced_above_256 Sample.rt _ _ _ _ E). rewrite Hb. lia.
Defined.

Lemma warmup_to_precomputed_witness :
  exists opt w',
    parse_option Sample.rt
      [Argparse.Flag "warm"; Argparse.Flag "cosine";
       Argparse.Opt "learning_rate" "0.5"] Sample.w0 = (Ok opt, w') /\
    warm opt = true /\ cosine opt = true /\
    warmup_from opt = Some 0.01%float /\ warm_epochs opt = Some 10.
Proof.
  destruct (parse_option Sample.rt
              [Argparse.Flag "warm"; Argparse.Flag "cosine";
               Argparse.Opt "learning_rate" "0.5"] Sample.w0)
    as [r w'] eqn:E.
  assert (Hr : exists opt, r = Ok opt /\ warm opt = true /\ cosine opt = true).
  { vm_compute in E. injection E as <- _. eexists. repeat split. }
  destruct Hr as (opt & -> & Hwm & Hc). exists opt, w'.
  split; [reflexivity|]. split; [exact Hwm|]. split; [exact Hc|].
  destruct (warmup_to_precomputed Sample.rt _ _ _ _ E Hwm) as (Hf & He & _).
  split; assumption.
Defined.

(* ===================================================================== *)
(** ** Decay milestones (lines 61-62) *)
(* ===================================================================== *)

Lemma int_list_Forall2 (pieces : list string) (l : list Z) :
  int_list pieces = Ok l ->
  Forall2 (fun piece m => int_of_str piece = Some m) pieces l.
Proof.
  revert l. induction pieces as [|it rest IH]; intros l; simpl.
  - intros [= <-]. constructor.
  - destruct (int_of_str it) as [n|] eqn:Hn; [|discriminate].
    destruct (int_list rest) as [ns|]; [|discriminate].
    intros [= <-]. constructor; [assumption|]. now apply IH.
Qed.

(** C10, counterexample.  [--lr_decay_epochs 900,800 --epochs 850] is
    accepted, and the milestones are then neither increasing nor within
    [[1, epochs]]. *)
Lemma milestones_unchecked :
  ~ (forall rt argv w opt w',
        parse_option rt argv w = (Ok opt, w') -> milestones_ok opt = true).
Proof.
  intros H.
  specialize (H Sample.rt
                [Argparse.Opt "lr_decay_epochs" "900,800";
                 Argparse.Opt "epochs" "850"] Sample.w0).
  destruct (parse_option _ _ _) as [r w'] eqn:E.
  assert (Hr : exists opt, r = Ok opt /\ lr_decay_epochs opt = [900; 800]
                           /\ epochs opt = 850).
  { vm_compute in E. injection E as <- _. eexists. repeat split. }
  destruct Hr as (opt & -> & Hl & He).
  specialize (H opt w' eq_refl).
  unfold milestones_ok in H. rewrite Hl in H. discriminate H.
Qed.

(** C10, as the code has it.  For every command line that option parsing
    accepts, the decay milestones are the comma-separated pieces of
    [--lr_decay_epochs] (default [700,800,900]), each read as an int, one
    milestone per piece and in the order written.  Nothing is checked
    about their order or range. *)
Theorem milestones_as_written rt (argv : list Argparse.arg) w opt w' :
  parse_option rt argv w = (Ok opt, w') ->
  Forall2 (fun piece m => int_of_str piece = Some m)
          (split_comma
             (Argparse.str_value "lr_decay_epochs" "700,800,900" argv))
          (lr_decay_epochs opt).
Proof.
  intros H.
  destruct (parse_option_inv rt _ _ _ _ H) as (ns & name & Hp & _ & Hl & _).
  destruct (parse_args_fields rt _ _ Hp) as (_ & _ & _ & <- & _).
  now apply int_list_Forall2.
Qed.

Lemma milestones_as_written_witness :
  exists opt w',
    parse_option Sample.rt [Argparse.Opt "lr_decay_epochs" "2,4"] Sample.w0
      = (Ok opt, w') /\
    Forall2 (fun piece m => int_of_str piece = Some m)
            ["2"; "4"] (lr_decay_epochs opt).
Proof.
  destruct (parse_option Sample.rt [Argparse.Opt "lr_decay_epochs" "2,4"]
                         Sample.w0) as [r w'] eqn:E.
  assert (Hr : exists opt, r = Ok opt).
  { vm_compute in E. injection E as <- _. eexists. reflexivity. }
  destruct Hr as (opt & ->). exists opt, w'. split; [reflexivity|].
  exact (milestones_as_written Sample.rt _ _ _ _ E).
Defined.

(* ===================================================================== *)
(** ** Failing fast on the dataset (parse_option, set_loader, main) *)
(* ===================================================================== *)

Section Dataset.
Variable rt : runtime.
Variable cb : collab.



(** [parse_option] raises before it touches the file system, and raises
    what [parse_args] raised if that is where it stopped. *)
Lemma parse_option_raise (argv : list Argparse.arg) w e w' :
  parse_option rt argv w = (Raise e, w') ->
  w' = w /\ (forall e', Argparse.parse_args rt argv = Raise e' -> e = e').
Proof.
  unfold parse_option, bind, lift. intros H.
  destruct (Argparse.parse_args rt argv) as [ns|e0].
  2:{ injection H as <- <-. split; [reflexivity|]. now intros e' [= <-]. }
  split; [|discriminate].
  destruct (check_required ns) as [[]|]; [|now injection H as _ <-].
  destruct (int_list _) as [l|]; [|now injection H as _ <-].
  destruct (warmup_setup rt ns _) as [[[[[wm nm] fr] we] to]|];
    [|now injection H as _ <-].
  destruct (ensure_dir_ok (path_join ("./save/newSupCon/" ++
              Argparse.dataset ns ++ "_tensorboard")%string nm) w)
    as (w1 & E1 & _).
  rewrite E1 in H.
  destruct (ensure_dir_ok (path_join ("./save/newSupCon/" ++
              Argparse.dataset ns ++ "_models")%string nm) w1)
    as (w2 & E2 & _).
  rewrite E2 in H. discriminate H.
Qed.

(** A successful [parse_option] has at most created directories. *)
Lemma parse_option_log (argv : list Argparse.arg) w opt w' :
  parse_option rt argv w = (Ok opt, w') ->
  exists created,
    log w' = log w ++ created /\ forallb is_makedirs created = true.
Proof.
  unfold parse_option, bind, lift. intros H.
  destruct (Argparse.parse_args rt argv) as [ns|]; [|discriminate].
  destruct (check_required ns) as [[]|]; [|discriminate].
  destruct (int_list _) as [l|]; [|discriminate].
  destruct (warmup_setup rt ns _) as [[[[[wm nm] fr] we] to]|];
    [|discriminate].
  destruct (ensure_dir_ok (path_join ("./save/newSupCon/" ++
              Argparse.dataset ns ++ "_tensorboard")%string nm) w)
    as (w1 & E1 & L1 & _).
  rewrite E1 in H.
  destruct (ensure_dir_ok (path_join ("./save/newSupCon/" ++
              Argparse.dataset ns ++ "_models")%string nm) w1)
    as (w2 & E2 & L2 & _).
  rewrite E2 in H. unfold ret in H. injection H as _ <-.
  destruct L1 as [L1|L1], L2 as [L2|L2]; rewrite L2, L1.
  - exists []. now rewrite app_nil_r.
  - eexists [_]. split; reflexivity.
  - eexists [_]. split; reflexivity.
  - eexists [_; _]. rewrite <- app_assoc. split; reflexivity.
Qed.

Lemma set_loader_unsupported (opt : options) w :
  dataset opt <> "sp" ->
  set_loader opt w
  = (Raise (ValueError ("dataset not supported: " ++ dataset opt)), w).
Proof.
  intros Hd. unfold set_loader, bind.
  destruct (String.eqb_spec (dataset opt) "sp"); [contradiction|reflexivity].
Qed.

Lemma main_unsupported (argv : list Argparse.arg) w opt w1 :
  parse_option rt argv w = (Ok opt, w1) ->
  dataset opt <> "sp" ->
  main rt cb argv w
  = (Raise (ValueError ("dataset not supported: " ++ dataset opt)), w1).
Proof.
  intros Hp Hd. unfold main, bind at 1. rewrite Hp.
  unfold bind at 1. now rewrite set_loader_unsupported.
Qed.

Lemma main_parse_raise (argv : list Argparse.arg) w e w1 :
  parse_option rt argv w = (Raise e, w1) ->
  main rt cb argv w = (Raise e, w1).
Proof. intros Hp. unfold main, bind at 1. now rewrite Hp. Qed.


(** C4.  A command line accepted with dataset [rf] comes with
    [--data_folder], [--mean] and [--std] (the assertion of lines
    53-54), and yet [set_loader] raises ['dataset not supported: rf'] on
    it whatever else it holds: [main] stops there, after creating the
    output directories at most, with no loader built and no step
    taken. *)
Theorem rf_always_rejected (argv : list Argparse.arg) w opt w1 :
  parse_option rt argv w = (Ok opt, w1) ->
  dataset opt = "rf" ->
  (Argparse.last_value "data_folder" argv <> None /\
   Argparse.last_value "mean" argv <> None /\
   Argparse.last_value "std" argv <> None) /\
  (forall w2,
      set_loader opt w2
      = (Raise (ValueError "dataset not supported: rf"), w2)) /\
  main rt cb argv w = (Raise (ValueError "dataset not supported: rf"), w1) /\
  exists created,
    log w1 = log w ++ created /\ forallb is_makedirs created = true.
Proof.
  intros Hp Hrf.
  assert (Hne : dataset opt <> "sp") by (rewrite Hrf; discriminate).
  split; [|split; [|split]].
  - destruct (parse_option_inv rt _ _ _ _ Hp)
      as (ns & name & Ha & Hreq & _ & _ & _ & Hds & _).
    destruct (parse_args_fields rt _ _ Ha)
      as (_ & _ & _ & _ & <- & <- & <-).
    unfold check_required in Hreq. rewrite <- Hds, Hrf in Hreq. cbn in Hreq.
    destruct (Argparse.data_folder ns), (Argparse.mean ns),
      (Argparse.std ns); try discriminate Hreq.
    repeat split; discriminate.
  - intros w2. rewrite (set_loader_unsupported _ w2 Hne). now rewrite Hrf.
  - rewrite (main_unsupported _ _ _ _ Hp Hne). now rewrite Hrf.
  - now apply parse_option_log with (argv := argv) (opt := opt).
Qed.
End Dataset.


Lemma rf_always_rejected_witness :
  exists opt w1,
    parse_option Sample.rt
      [Argparse.Opt "dataset" "rf"; Argparse.Opt "data_folder" "./rf/";
       Argparse.Opt "mean" "(0.5,)"; Argparse.Opt "std" "(0.2,)"] Sample.w0
      = (Ok opt, w1) /\
    dataset opt = "rf" /\
    main Sample.rt Sample.cb
      [Argparse.Opt "dataset" "rf"; Argparse.Opt "data_folder" "./rf/";
       Argparse.Opt "mean" "(0.5,)"; Argparse.Opt "std" "(0.2,)"] Sample.w0
      = (Raise (ValueError "dataset not supported: rf"), w1).
Proof.
  destruct (parse_option Sample.rt
              [Argparse.Opt "dataset" "rf"; Argparse.Opt "data_folder" "./rf/";
               Argparse.Opt "mean" "(0.5,)"; Argparse.Opt "std" "(0.2,)"]
              Sample.w0) as [r w1] eqn:E.
  assert (Hr : exists opt, r = Ok opt /\ dataset opt = "rf").
  { vm_compute in E. injection E as <- _. eexists. split; reflexivity. }
  destruct Hr as (opt & -> & Hd). exists opt, w1.
  split; [reflexivity|]. split; [exact Hd|].
  exact (proj1 (proj2 (proj2
           (rf_always_rejected Sample.rt Sample.cb _ _ _ _ E Hd)))).
Defined.

(* ===================================================================== *)
(** ** Unknown encoder names (set_model) *)
(* ===================================================================== *)

Section SetModel.
Variable rt : runtime.

(** C9.  For the dataset [sp] and an encoder name outside the registry,
    the selection of lines 119-127 raises nothing: it prints its message
    and leaves [model] unbound.  [set_model] goes on to build the
    criterion, and stops only where the unbound variable is next read
    (or, with [--syncBN], at the name [apex], which is looked up
    first). *)
Theorem unknown_model_not_rejected (opt : options) (w : world) :
  dataset opt = "sp" ->
  ~ In (model opt) registry ->
  select_model opt w
  = (Ok None, logged w [Print ("没找到模型" ++ model opt)]) /\
  set_model rt opt w
  = (Raise (if syncBN opt then NameError "apex"
            else UnboundLocalError "model"),
     logged w [Print ("没找到模型" ++ model opt); NewCriterion (temp opt)]).
Proof.
  intros Hd Hm.
  assert (Hs : select_model opt w
               = (Ok None, logged w [Print ("没找到模型" ++ model opt)])).
  { unfold select_model. rewrite Hd. cbn [String.eqb Ascii.eqb Bool.eqb].
    destruct (String.eqb_spec (model opt) "CustomCNN") as [E|_];
      [exfalso; apply Hm; rewrite E; cbn; auto|].
    destruct (String.eqb_spec (model opt) "CustomCNNmini") as [E|_];
      [exfalso; apply Hm; rewrite E; cbn; auto|].
    destruct (String.eqb_spec (model opt) "CustomCNNminidrop") as [E|_];
      [exfalso; apply Hm; rewrite E; cbn; auto|].
    reflexivity. }
  split; [exact Hs|].
  unfold set_model, bind at 1. rewrite Hs.
  unfold bind, emit, logged, ret, raise, read_model. cbn.
  rewrite <- app_assoc. cbn.
  destruct (syncBN opt); [reflexivity|].
  destruct (cuda_is_available rt); [|reflexivity].
  destruct (cuda_device_count rt >? 1); reflexivity.
Qed.
End SetModel.

Lemma unknown_model_not_rejected_witness :
  exists opt w,
    parse_option Sample.rt [Argparse.Opt "model" "resnet50"] Sample.w0
      = (Ok opt, w) /\
    set_model Sample.rt opt w
    = (Raise (UnboundLocalError "model"),
       logged w [Print "没找到模型resnet50"; NewCriterion 0.07%float]).
Proof.
  destruct (parse_option Sample.rt [Argparse.Opt "model" "resnet50"] Sample.w0)
    as [r w] eqn:E.
  assert (Hr : exists opt, r = Ok opt /\ dataset opt = "sp"
                           /\ model opt = "resnet50" /\ syncBN opt = false
                           /\ temp opt = 0.07%float).
  { vm_compute in E. injection E as <- _. eexists. repeat split. }
  destruct Hr as (opt & -> & Hd & Hm & Hs & Ht). exists opt, w.
  split; [reflexivity|].
  destruct (unknown_model_not_rejected Sample.rt opt w Hd) as (_ & H).
  - rewrite Hm. cbn. intros [F|[F|[F|[]]]]; discriminate F.
  - rewrite H, Hs, Hm, Ht. reflexivity.
Defined.

(* ===================================================================== *)
(** ** The two views through one forward pass (lines 156-170) *)
(* ===================================================================== *)

Section TorchFacts.
Context {A : Type}.

Lemma split_cat (a b : list A) :
  split (cat a b) (List.length a) (List.length b) = Ok (a, b).
Proof.
  unfold split, cat. rewrite length_app, Nat.eqb_refl.
  rewrite firstn_app, Nat.sub_diag, firstn_all, firstn_O, app_nil_r.
  rewrite skipn_app, Nat.sub_diag, skipn_all, skipn_O.
  cbn [app]. now rewrite firstn_all.
Qed.

Lemma split_inv (t : list A) (n1 n2 : nat) x y :
  split t n1 n2 = Ok (x, y) ->
  t = x ++ y /\ List.length x = n1 /\ List.length y = n2.
Proof.
  unfold split. destruct (Nat.eqb_spec (n1 + n2) (List.length t)) as [E|];
    [|discriminate].
  intros [= <- <-].
  assert (Hn2 : n2 = List.length (skipn n1 t)) by (rewrite length_skipn; lia).
  rewrite Hn2 at 1 2. rewrite firstn_all, firstn_skipn.
  split; [reflexivity|]. split; [|congruence].
  rewrite length_firstn. lia.
Qed.

Lemma split_sizes (t : list A) (n1 n2 : nat) :
  List.length t = (n1 + n2)%nat ->
  exists x y, split t n1 n2 = Ok (x, y).
Proof.
  intros E. unfold split. rewrite E, Nat.eqb_refl. eauto.
Qed.

Lemma zip_app_unsqueeze1 (a b : list A) :
  zip_app (unsqueeze1 a) (unsqueeze1 b) = pairs a b.
Proof.
  revert b. induction a as [|x a IH]; intros [|y b]; cbn; try reflexivity.
  f_equal. apply IH.
Qed.

Lemma cat1_unsqueeze1 (a b : list A) :
  List.length a = List.length b ->
  cat1 (unsqueeze1 a) (unsqueeze1 b) = Ok (pairs a b).
Proof.
  intros E. unfold cat1, unsqueeze1. rewrite !length_map, E, Nat.eqb_refl.
  f_equal. apply zip_app_unsqueeze1.
Qed.

Lemma pairs_nth (a b : list A) i x y :
  nth_error a i = Some x -> nth_error b i = Some y ->
  nth_error (pairs a b) i = Some [x; y].
Proof.
  revert b i. induction a as [|a0 a IH]; intros [|b0 b] [|i]; cbn;
    try discriminate.
  - now intros [= ->] [= ->].
  - apply IH.
Qed.
End TorchFacts.

Section ForwardPass.
Variable cb : collab.

Lemma paired_features_ok (t : trainer) (v1 v2 : list image) (labels : list Z)
      (f1 f2 : list embedding) :
  forward cb t (cat v1 v2) = f1 ++ f2 ->
  List.length f1 = List.length labels ->
  List.length f2 = List.length labels ->
  paired_features cb t (v1, v2) labels = Ok (pairs f1 f2).
Proof.
  intros Hf H1 H2. unfold paired_features. cbn [fst snd]. rewrite Hf.
  rewrite <- H1 at 1. rewrite <- H2. change (f1 ++ f2) with (cat f1 f2).
  rewrite split_cat. cbn [rbind]. apply cat1_unsqueeze1. congruence.
Qed.

(** C1.  For two views of batch size [B] (and the [B] labels that give
    [bsz]): splitting the concatenation at [B] gives back the two views
    exactly.  Through an encoder that returns one embedding per row of
    its input, the split succeeds and cuts the [2B] embeddings into the
    first [B] and the last [B]: row [i] of the first half is the
    embedding at the position where row [i] of view 1 went in, row [i]
    of the second half the one where row [i] of view 2 went in, and row
    [i] of the paired tensor holds these two.  For an encoder that works
    row by row the halves are the embeddings of view 1 and of view 2. *)
Theorem concat_split_round_trip (t : trainer) (v1 v2 : list image)
        (labels : list Z) (B : nat) :
  List.length v1 = B ->
  List.length v2 = B ->
  List.length labels = B ->
  let images := cat v1 v2 in
  let features := forward cb t images in
  split images B B = Ok (v1, v2) /\
  (List.length features = List.length images ->
   exists f1 f2,
     split features B B = Ok (f1, f2) /\
     features = f1 ++ f2 /\
     List.length f1 = B /\ List.length f2 = B /\
     paired_features cb t (v1, v2) labels = Ok (pairs f1 f2) /\
     forall i x1 x2,
       nth_error v1 i = Some x1 -> nth_error v2 i = Some x2 ->
       nth_error images i = Some x1 /\
       nth_error images (B + i) = Some x2 /\
       exists e1 e2,
         nth_error features i = Some e1 /\
         nth_error features (B + i) = Some e2 /\
         nth_error f1 i = Some e1 /\
         nth_error f2 i = Some e2 /\
         nth_error (pairs f1 f2) i = Some [e1; e2]) /\
  (forall enc : image -> embedding,
      (forall xs, forward cb t xs = map enc xs) ->
      split features B B = Ok (map enc v1, map enc v2) /\
      paired_features cb t (v1, v2) labels
      = Ok (pairs (map enc v1) (map enc v2))).
Proof.
  intros H1 H2 HL images features. split; [|split].
  - subst images. rewrite <- H1 at 1. rewrite <- H2. apply split_cat.
  - intros Hlen.
    assert (Hsz : List.length features = (B + B)%nat).
    { rewrite Hlen. subst images. unfold cat. rewrite length_app. lia. }
    destruct (split_sizes features B B Hsz) as (f1 & f2 & Hs).
    destruct (split_inv _ _ _ _ _ Hs) as (Hf & Hf1 & Hf2).
    exists f1, f2. repeat split; try assumption.
    + apply paired_features_ok; [exact Hf|congruence|congruence].
    + subst images. unfold cat.
      rewrite nth_error_app1; [assumption|].
      apply nth_error_Some. congruence.
    + subst images. unfold cat.
      rewrite nth_error_app2 by lia.
      replace (B + i - List.length v1)%nat with i by lia. assumption.
    + assert (Hi : (i < B)%nat).
      { rewrite <- H1. apply nth_error_Some. congruence. }
      destruct (nth_error f1 i) as [e1|] eqn:E1.
      2:{ apply nth_error_None in E1. lia. }
      destruct (nth_error f2 i) as [e2|] eqn:E2.
      2:{ apply nth_error_None in E2. lia. }
      exists e1, e2. rewrite Hf. repeat split.
      * rewrite nth_error_app1 by lia. exact E1.
      * rewrite nth_error_app2 by lia.
        replace (B + i - List.length f1)%nat with i by lia. exact E2.
      * now apply pairs_nth.
  - intros enc Henc.
    assert (Hf : features = map enc v1 ++ map enc v2).
    { subst features images. unfold cat. now rewrite Henc, map_app. }
    split.
    + rewrite Hf. change (map enc v1 ++ map enc v2)
        with (cat (map enc v1) (map enc v2)).
      rewrite <- H1 at 1. rewrite <- H2.
      rewrite <- (length_map enc v1) at 1. rewrite <- (length_map enc v2).
      apply split_cat.
    + apply paired_features_ok; [exact Hf| |]; rewrite length_map; congruence.
Qed.

Lemma compute_loss_other_method (opt : options) criterion features labels :
  method opt <> "SupCon" -> method opt <> "SimCLR" ->
  compute_loss cb opt criterion features labels
  = Raise (UnboundLocalError "loss").
Proof.
  intros H1 H2. unfold compute_loss.
  destruct (String.eqb_spec (method opt) "SupCon"); [contradiction|].
  destruct (String.eqb_spec (method opt) "SimCLR"); [contradiction|].
  reflexivity.
Qed.
End ForwardPass.

(* ===================================================================== *)
(** ** One step and one epoch of [train] *)
(* ===================================================================== *)

Section TrainFacts.
Variable rt : runtime.
Variable cb : collab.

(** What a step that completes has done. *)
Lemma train_step_inv opt criterion epoch total idx images labels st w st' w' :
  train_step rt cb opt criterion epoch total idx (images, labels) st w
  = (Ok st', w') ->
  let t1 := warmup_learning_rate cb opt epoch idx total (st_trainer st) in
  exists features loss used x y,
    paired_features cb t1 images labels = Ok features /\
    compute_loss cb opt criterion features labels = Ok (loss, used) /\
    update (losses (st_meters st)) loss (Z.of_nat (List.length labels))
    = Ok (losses (st_meters st')) /\
    update (data_time (st_meters st)) x 1 = Ok (data_time (st_meters st')) /\
    update (batch_time (st_meters st)) y 1 = Ok (batch_time (st_meters st')) /\
    st_trainer st'
    = backward_step cb (cat (fst images) (snd images)) used t1.
Proof.
  intros H t1. revert H.
  unfold train_step, bind, lift, emit, time_now. cbn [log dirs ticks].
  fold t1. intros H.
  destruct (update (data_time (st_meters st)) _ 1) as [dt|] eqn:Hdt;
    [|discriminate].
  destruct (paired_features cb t1 images labels) as [features|] eqn:Hpf;
    [|discriminate].
  destruct (compute_loss cb opt criterion features labels) as [[loss used]|]
    eqn:Hcl; [|discriminate].
  destruct (update (losses (st_meters st)) loss _) as [ls|] eqn:Hls;
    [|discriminate].
  destruct (update (batch_time (st_meters st)) _ 1) as [bt|] eqn:Hbt;
    [|discriminate].
  destruct (py_mod _ _) as [r|]; [|discriminate].
  exists features, loss, used. do 2 eexists.
  destruct (r =? 0); unfold ret in H; cbn in H; injection H as <- _;
    cbn [st_meters st_trainer losses data_time batch_time];
    repeat split; eassumption.
Qed.

(** C2.  In a run whose options were accepted the method is [SupCon] or
    [SimCLR].  With [SupCon] the loss of every step is the criterion
    called on the paired features and the labels; with [SimCLR] it is
    the criterion called on the paired features alone, the labels left
    out.  The paired features are those of [paired_features], and the
    loss so computed is what the step adds to the loss meter. *)
Theorem loss_dispatch (argv : list Argparse.arg) w opt w' :
  parse_option rt argv w = (Ok opt, w') ->
  exists used : list Z -> option (list Z),
    (method opt = "SupCon" /\ used = Some \/
     method opt = "SimCLR" /\ used = (fun _ => None)) /\
    (forall criterion features labels,
        compute_loss cb opt criterion features labels
        = Ok (criterion_call cb criterion features (used labels),
              used labels)) /\
    (forall criterion epoch total idx images labels st w1 st' w2,
        train_step rt cb opt criterion epoch total idx (images, labels) st w1
        = (Ok st', w2) ->
        exists features,
          paired_features
            cb (warmup_learning_rate cb opt epoch idx total (st_trainer st))
            images labels = Ok features /\
          update (losses (st_meters st))
                 (criterion_call cb criterion features (used labels))
                 (Z.of_nat (List.length labels))
          = Ok (losses (st_meters st'))).
Proof.
  intros H.
  destruct (parse_option_inv rt _ _ _ _ H)
    as (ns & name & Ha & _ & _ & _ & Hm & _).
  assert (Hd : exists used : list Z -> option (list Z),
             (method opt = "SupCon" /\ used = Some \/
              method opt = "SimCLR" /\ used = (fun _ => None)) /\
             forall criterion features labels,
               compute_loss cb opt criterion features labels
               = Ok (criterion_call cb criterion features (used labels),
                     used labels)).
  { unfold compute_loss.
    destruct (parse_args_method rt _ _ Ha) as [E|E]; rewrite <- Hm in E;
      rewrite E.
    - exists Some. split; [now left|reflexivity].
    - exists (fun _ => None). split; [now right|reflexivity]. }
  destruct Hd as (used & Hu & Hc). exists used.
  split; [exact Hu|]. split; [exact Hc|].
  intros criterion epoch total idx images labels st w1 st' w2 Hs.
  destruct (train_step_inv _ _ _ _ _ _ _ _ _ _ _ Hs)
    as (features & loss & u & x & y & Hpf & Hcl & Hup & _).
  exists features. split; [exact Hpf|].
  rewrite Hc in Hcl. injection Hcl as <- _. exact Hup.
Qed.
End TrainFacts.

(* ===================================================================== *)
(** ** The loop of [train] and the epoch loop of [main] *)
(* ===================================================================== *)

Lemma timeline_app (a b : list event) :
  timeline (a ++ b) = timeline a ++ timeline b.
Proof. apply filter_app. Qed.

Lemma saves_app (a b : list event) : saves (a ++ b) = saves a ++ saves b.
Proof. apply flat_map_app. Qed.

Lemma reported_losses_app (a b : list event) :
  reported_losses (a ++ b) = reported_losses a ++ reported_losses b.
Proof. apply flat_map_app. Qed.

Lemma saves_timeline (l : list event) : saves (timeline l) = saves l.
Proof.
  unfold saves, timeline. induction l as [|e l IH]; [reflexivity|].
  destruct e; cbn; rewrite ?IH; reflexivity.
Qed.



Lemma in_train_quiet (l : list event) :
  forallb in_train l = true -> reported_losses l = [] /\ saves l = [].
Proof.
  induction l as [|e l IH]; [now split|].
  cbn [forallb]. intros H. apply andb_prop in H as [He Hl].
  destruct (IH Hl) as [IH1 IH2].
  destruct e; try discriminate He; cbn; now rewrite ?IH1, ?IH2.
Qed.

Section LoopFacts.
Variable rt : runtime.
Variable cb : collab.

Lemma train_step_log opt criterion epoch total idx b st w st' w' :
  train_step rt cb opt criterion epoch total idx b st w = (Ok st', w') ->
  exists new,
    log w' = log w ++ new /\ timeline new = [OptimizerStep epoch idx] /\
    forallb in_train new = true.
Proof.
  destruct b as [images labels].
  unfold train_step, bind, lift, emit, time_now. cbn [log dirs ticks].
  intros H.
  destruct (update (data_time (st_meters st)) _ 1); [|discriminate].
  destruct (paired_features cb _ images labels); [|discriminate].
  destruct (compute_loss cb opt criterion _ labels) as [[loss used]|];
    [|discriminate].
  destruct (update (losses (st_meters st)) loss _); [|discriminate].
  destruct (update (batch_time (st_meters st)) _ 1); [|discriminate].
  destruct (py_mod _ _) as [r|]; [|discriminate].
  destruct (r =? 0); unfold ret in H; cbn in H; injection H as _ <-;
    cbn [log]; rewrite <- ?app_assoc; eexists; repeat split; reflexivity.
Qed.

(** A loop that completes has taken one step per batch, in order, each
    step adding one update to every meter. *)
Lemma train_loop_inv opt criterion epoch total bs :
  forall idx st w st' w',
    train_loop rt cb opt criterion epoch total bs idx st w = (Ok st', w') ->
    exists new vals xs ys,
      log w' = log w ++ new /\
      timeline new
      = map (OptimizerStep epoch) (seq idx (List.length bs)) /\
      forallb in_train new = true /\
      List.length vals = List.length bs /\
      updates (losses (st_meters st)) (combine vals (batch_sizes bs))
      = Ok (losses (st_meters st')) /\
      List.length xs = List.length bs /\
      updates (data_time (st_meters st)) (map (fun x => (x, 1)) xs)
      = Ok (data_time (st_meters st')) /\
      List.length ys = List.length bs /\
      updates (batch_time (st_meters st)) (map (fun y => (y, 1)) ys)
      = Ok (batch_time (st_meters st')).
Proof.
  induction bs as [|b rest IH]; intros idx st w st' w'; cbn [train_loop].
  - unfold ret. intros [= <- <-]. exists [], [], [], [].
    rewrite app_nil_r. repeat split.
  - unfold bind.
    destruct (train_step rt cb opt criterion epoch total idx b st w)
      as [[st1|] w1] eqn:Hs; [|discriminate].
    intros Hl.
    destruct (train_step_log _ _ _ _ _ _ _ _ _ _ Hs) as (n1 & L1 & T1 & Q1).
    destruct b as [images labels].
    destruct (train_step_inv _ _ _ _ _ _ _ _ _ _ _ _ _ Hs)
      as (features & loss & used & x & y & _ & _ & Ul & Ud & Ub & _).
    destruct (IH _ _ _ _ _ Hl)
      as (n2 & vals & xs & ys & L2 & T2 & Q2 & Lv & Uv & Lx & Ux & Ly & Uy).
    exists (n1 ++ n2), (loss :: vals), (x :: xs), (y :: ys).
    rewrite L2, L1, <- app_assoc, timeline_app, T1, T2, forallb_app, Q1, Q2.
    cbn [List.length seq map combine batch_sizes updates snd app].
    rewrite Ul, Ud, Ub. cbn [rbind].
    repeat split; try assumption; congruence.
Qed.

Lemma train_inv ld criterion t epoch opt w a t' ms w' :
  train rt cb ld criterion t epoch opt w = (Ok (a, t', ms), w') ->
  let bs := batches_of cb ld epoch in
  exists new vals xs ys,
    log w' = log w ++ new /\
    timeline new = map (OptimizerStep epoch) (seq 0 (List.length bs)) /\
    forallb in_train new = true /\
    List.length vals = List.length bs /\
    updates new_meter (combine vals (batch_sizes bs)) = Ok (losses ms) /\
    List.length xs = List.length bs /\
    updates new_meter (map (fun x => (x, 1)) xs) = Ok (data_time ms) /\
    List.length ys = List.length bs /\
    updates new_meter (map (fun y => (y, 1)) ys) = Ok (batch_time ms) /\
    avg (avg_before_update cb) (losses ms) = Ok a.
Proof.
  intros H bs. revert H. unfold train, bind at 1, time_now. fold bs.
  intros H. unfold bind at 1 in H.
  destruct (train_loop rt cb opt criterion epoch _ bs 0 _ _)
    as [[st|] w1] eqn:Hl; [|discriminate].
  unfold bind, lift, ret in H.
  destruct (avg _ _) as [a0|] eqn:Ha; [|discriminate].
  injection H as <- <- <- <-.
  destruct (train_loop_inv _ _ _ _ _ _ _ _ _ _ Hl)
    as (new & vals & xs & ys & L & T & Q & R).
  exists new, vals, xs, ys. cbn [log st_meters losses data_time batch_time
                                  fresh_meters] in *.
  repeat split; first [exact Ha | tauto].
Qed.
End LoopFacts.

Section EpochFacts.
Variable rt : runtime.
Variable cb : collab.

(** An epoch that completes. *)
Lemma epoch_body_inv opt ld criterion epoch t w t' w' :
  epoch_body rt cb opt ld criterion epoch t w = (Ok t', w') ->
  exists a ms w0 w1 new,
    train rt cb ld criterion (adjust_learning_rate cb opt t epoch) epoch opt w0
    = (Ok (a, t', ms), w1) /\
    log w' = log w ++ new /\
    timeline new
    = AdjustLearningRate epoch
        :: map (OptimizerStep epoch)
               (seq 0 (List.length (batches_of cb ld epoch)))
        ++ (if epoch mod save_freq opt =? 0
            then [SaveModel (ckpt_file opt epoch) epoch]
            else []) /\
    reported_losses new = [(epoch, a)] /\
    save_freq opt <> 0.
Proof.
  unfold epoch_body, bind at 1, emit. unfold bind at 1, time_now.
  unfold bind at 1. intros H.
  destruct (train rt cb ld criterion _ epoch opt _) as [[[[a t1] ms]|] w1]
    eqn:Ht; [|discriminate].
  exists a, ms. do 2 eexists.
  destruct (train_inv _ _ _ _ _ _ _ _ _ _ _ _ Ht)
    as (n1 & _ & _ & _ & L1 & T1 & Q1 & _).
  destruct (in_train_quiet _ Q1) as (R1 & _).
  cbn [log] in L1.
  unfold bind, time_now, emit, lift, py_mod in H. cbn [log dirs ticks] in H.
  destruct (Z.eqb_spec (save_freq opt) 0) as [|Hsf]; [discriminate|].
  destruct (epoch mod save_freq opt =? 0); unfold ret in H;
    injection H as <- <-; cbn [log]; rewrite L1;
    eexists; (split; [exact Ht|]);
    rewrite <- ?app_assoc; (split; [reflexivity|]);
    rewrite !timeline_app, !reported_losses_app, T1, R1;
    cbn; rewrite ?app_nil_r; repeat split; assumption.
Qed.
End EpochFacts.

Lemma makedirs_off_timeline (l : list event) :
  forallb is_makedirs l = true -> timeline l = [].
Proof.
  induction l as [|e l IH]; [reflexivity|].
  cbn [forallb]. intros H. apply andb_prop in H as [He Hl].
  destruct e; try discriminate He. cbn. now apply IH.
Qed.

Lemma range1_spec (n e : Z) : In e (range1 n) <-> 1 <= e <= n.
Proof.
  unfold range1. rewrite in_map_iff. split.
  - intros (k & <- & Hk). apply in_seq in Hk. lia.
  - intros H. exists (Z.to_nat e). split; [lia|]. apply in_seq. lia.
Qed.

Section MainFacts.
Variable rt : runtime.
Variable cb : collab.

Lemma set_loader_ok (opt : options) w ld w' :
  set_loader opt w = (Ok ld, w') ->
  ld = loader_of opt /\
  exists new, log w' = log w ++ new /\ timeline new = [].
Proof.
  unfold set_loader, bind, emit, ret, raise.
  destruct (String.eqb (dataset opt) "sp"); [|discriminate].
  cbn [log]. intros [= <- <-]. split; [reflexivity|].
  cbn [log]. rewrite <- app_assoc. eexists. split; reflexivity.
Qed.

Lemma select_model_ok (opt : options) w m w' :
  select_model opt w = (Ok m, w') ->
  exists new, log w' = log w ++ new /\ timeline new = [].
Proof.
  unfold select_model, construct, bind, emit, ret.
  repeat match goal with
         | |- context [if ?b then _ else _] => destruct b
         end;
    intros [= <- <-]; cbn [log]; eexists; split; reflexivity.
Qed.

Lemma set_model_ok (opt : options) w r w' :
  set_model rt opt w = (Ok r, w') ->
  exists new, log w' = log w ++ new /\ timeline new = [].
Proof.
  unfold set_model, bind at 1.
  destruct (select_model opt w) as [[m|] w1] eqn:Hs; [|discriminate].
  destruct (select_model_ok _ _ _ _ Hs) as (n1 & L1 & T1).
  unfold bind, emit, ret, raise, read_model. cbn [log dirs ticks].
  intros H.
  assert (Hw : log w' = log w1 ++ [NewCriterion (temp opt)]).
  { destruct (syncBN opt); [discriminate|].
    destruct (cuda_is_available rt).
    - destruct (cuda_device_count rt >? 1); destruct m; try discriminate;
        injection H as _ <-; reflexivity.
    - destruct m; try discriminate. injection H as _ <-. reflexivity. }
  rewrite Hw, L1, <- app_assoc. eexists. split; [reflexivity|].
  now rewrite timeline_app, T1.
Qed.

(** An epoch loop that completes has gone through its epochs in order,
    each as [epoch_timeline] says. *)
Lemma epoch_loop_inv opt criterion es :
  forall t w t' w',
    epoch_loop rt cb opt (loader_of opt) criterion es t w = (Ok t', w') ->
    exists new,
      log w' = log w ++ new /\
      timeline new = flat_map (epoch_timeline cb opt) es /\
      (es <> [] -> save_freq opt <> 0).
Proof.
  induction es as [|e rest IH]; intros t w t' w'; cbn [epoch_loop].
  - unfold ret. intros [= <- <-]. exists []. rewrite app_nil_r.
    repeat split. congruence.
  - unfold bind.
    destruct (epoch_body rt cb opt (loader_of opt) criterion e t w)
      as [[t1|] w1] eqn:Hb; [|discriminate].
    intros Hl.
    destruct (epoch_body_inv _ _ _ _ _ _ _ _ _ _ Hb)
      as (a & ms & w0 & w0' & n1 & _ & L1 & T1 & _ & Hsf).
    destruct (IH _ _ _ _ Hl) as (n2 & L2 & T2 & _).
    exists (n1 ++ n2). rewrite L2, L1, <- app_assoc, timeline_app, T1, T2.
    split; [reflexivity|]. split; [|intros _; exact Hsf].
    reflexivity.
Qed.

(** A run of [main] that completes. *)
Lemma main_inv (argv : list Argparse.arg) w w' :
  main rt cb argv w = (Ok tt, w') ->
  exists opt w1 new,
    parse_option rt argv w = (Ok opt, w1) /\
    log w' = log w ++ new /\
    timeline new
    = flat_map (epoch_timeline cb opt) (range1 (epochs opt))
      ++ [SaveModel (last_file opt) (epochs opt)] /\
    (1 <= epochs opt -> save_freq opt <> 0).
Proof.
  unfold main, bind at 1.
  destruct (parse_option rt argv w) as [[opt|] w1] eqn:Hp; [|discriminate].
  unfold bind at 1.
  destruct (set_loader opt w1) as [[ld|] w2] eqn:Hl; [|discriminate].
  unfold bind at 1.
  destruct (set_model rt opt w2) as [[[m criterion]|] w3] eqn:Hm;
    [|discriminate].
  unfold bind at 1, emit. unfold bind at 1.
  destruct (epoch_loop rt cb opt ld criterion _ _ _) as [[t|] w4] eqn:He;
    [|discriminate].
  unfold bind, emit, ret. intros [= <-].
  destruct (parse_option_log rt _ _ _ _ Hp) as (n1 & L1 & Q1).
  destruct (set_loader_ok _ _ _ _ Hl) as (-> & n2 & L2 & T2).
  destruct (set_model_ok _ _ _ _ Hm) as (n3 & L3 & T3).
  destruct (epoch_loop_inv _ _ _ _ _ _ _ He) as (n4 & L4 & T4 & Hsf).
  cbn [log] in L4 |- *.
  exists opt, w1. eexists. split; [reflexivity|].
  rewrite L4, L3, L2, L1, <- !app_assoc. split; [reflexivity|].
  rewrite !timeline_app, (makedirs_off_timeline _ Q1), T2, T3, T4.
  split; [reflexivity|].
  intros Hpos. apply Hsf. unfold range1.
  destruct (Z.to_nat (epochs opt)) eqn:E; [lia|discriminate].
Qed.
End MainFacts.

(* ===================================================================== *)
(** ** Runs that stop early *)
(* ===================================================================== *)

Section AnyOutcome.
Variable rt : runtime.
Variable cb : collab.

(** Whatever its outcome, a step logs events of the loop of [train]
    only. *)
Lemma train_step_any opt criterion epoch total idx b st w r w' :
  train_step rt cb opt criterion epoch total idx b st w = (r, w') ->
  exists new, log w' = log w ++ new /\ forallb in_train new = true.
Proof.
  destruct b as [images labels].
  unfold train_step, bind, lift, emit, time_now, ret. cbn [log dirs ticks].
  intros H.
  destruct (update (data_time (st_meters st)) _ 1);
    [|injection H as _ <-; cbn [log]; now eexists].
  destruct (paired_features cb _ images labels);
    [|injection H as _ <-; cbn [log]; now eexists].
  destruct (compute_loss cb opt criterion _ labels) as [[loss used]|];
    [|injection H as _ <-; cbn [log]; now eexists].
  destruct (update (losses (st_meters st)) loss _);
    [|injection H as _ <-; cbn [log]; now eexists].
  destruct (update (batch_time (st_meters st)) _ 1);
    [|injection H as _ <-; cbn [log]; rewrite <- app_assoc; now eexists].
  destruct (py_mod _ _) as [m|];
    [|injection H as _ <-; cbn [log]; rewrite <- app_assoc; now eexists].
  destruct (m =? 0); injection H as _ <-; cbn [log];
    rewrite <- ?app_assoc; now eexists.
Qed.

Lemma train_loop_any opt criterion epoch total bs :
  forall idx st w r w',
    train_loop rt cb opt criterion epoch total bs idx st w = (r, w') ->
    exists new, log w' = log w ++ new /\ forallb in_train new = true.
Proof.
  induction bs as [|b rest IH]; intros idx st w r w'; cbn [train_loop].
  - unfold ret. intros [= <- <-]. exists []. now rewrite app_nil_r.
  - unfold bind.
    destruct (train_step rt cb opt criterion epoch total idx b st w)
      as [[st1|e] w1] eqn:Hs; intros Hl;
      destruct (train_step_any _ _ _ _ _ _ _ _ _ _ Hs) as (n1 & L1 & Q1).
    + destruct (IH _ _ _ _ _ Hl) as (n2 & L2 & Q2).
      exists (n1 ++ n2). rewrite L2, L1, <- app_assoc, forallb_app, Q1, Q2.
      now split.
    + injection Hl as _ <-. now exists n1.
Qed.

Lemma train_any ld criterion t epoch opt w r w' :
  train rt cb ld criterion t epoch opt w = (r, w') ->
  exists new, log w' = log w ++ new /\ forallb in_train new = true.
Proof.
  unfold train, bind at 1, time_now. unfold bind at 1.
  destruct (train_loop rt cb opt criterion epoch _ _ 0 _ _)
    as [[st|e] w1] eqn:Hl; intros H;
    destruct (train_loop_any _ _ _ _ _ _ _ _ _ _ Hl) as (new & L & Q);
    cbn [log] in L; exists new.
  - unfold bind, lift, ret in H.
    destruct (avg _ _); injection H as _ <-; now split.
  - injection H as _ <-. now split.
Qed.

(** An epoch writes its checkpoint as its last act, if at all. *)
Lemma epoch_body_any opt ld criterion epoch t w r w' :
  epoch_body rt cb opt ld criterion epoch t w = (r, w') ->
  exists new,
    log w' = log w ++ new /\
    saves new
    = match r with
      | Ok _ => if epoch mod save_freq opt =? 0
                then [(ckpt_file opt epoch, epoch)]
                else []
      | Raise _ => []
      end.
Proof.
  unfold epoch_body, bind at 1, emit. unfold bind at 1, time_now.
  unfold bind at 1. intros H.
  destruct (train rt cb ld criterion _ epoch opt _) as [[[[a t1] ms]|e] w1]
    eqn:Ht; destruct (train_any _ _ _ _ _ _ _ _ Ht) as (n1 & L1 & Q1);
    destruct (in_train_quiet _ Q1) as (_ & S1); cbn [log] in L1.
  - unfold bind, time_now, emit, lift, py_mod, ret in H.
    cbn [log dirs ticks] in H.
    destruct (save_freq opt =? 0);
      [|destruct (epoch mod save_freq opt =? 0)];
      injection H as <- <-; cbn [log]; rewrite L1, <- ?app_assoc;
      eexists; (split; [reflexivity|]); rewrite !saves_app, S1; reflexivity.
  - injection H as <- <-. rewrite L1, <- app_assoc. eexists.
    split; [reflexivity|]. now rewrite saves_app, S1.
Qed.

(** The epoch loop goes through an initial segment of its epochs, all of
    them if it completes, and writes the checkpoints due in that
    segment. *)
Lemma epoch_loop_any opt ld criterion es :
  forall t w r w',
    epoch_loop rt cb opt ld criterion es t w = (r, w') ->
    exists new finished rest,
      log w' = log w ++ new /\
      es = finished ++ rest /\
      (forall t', r = Ok t' -> rest = []) /\
      saves new
      = map (fun e => (ckpt_file opt e, e))
            (filter (fun e => e mod save_freq opt =? 0) finished).
Proof.
  induction es as [|e es IH]; intros t w r w'; cbn [epoch_loop].
  - unfold ret. intros [= <- <-]. exists [], [], [].
    rewrite app_nil_r. repeat split.
  - unfold bind.
    destruct (epoch_body rt cb opt ld criterion e t w) as [[t1|x] w1] eqn:Hb;
      intros Hl; destruct (epoch_body_any _ _ _ _ _ _ _ _ Hb) as (n1 & L1 & S1).
    + destruct (IH _ _ _ _ Hl) as (n2 & fin & rest & L2 & -> & Hr & S2).
      exists (n1 ++ n2), (e :: fin), rest.
      rewrite L2, L1, <- app_assoc, saves_app, S1, S2.
      repeat split; [exact Hr|]. cbn [filter].
      destruct (e mod save_freq opt =? 0); reflexivity.
    + injection Hl as <- <-. exists n1, [], (e :: es).
      split; [exact L1|]. split; [reflexivity|].
      split; [discriminate|exact S1].
Qed.

Lemma quiet_setup (l : list event) :
  timeline l = [] -> saves l = [].
Proof. intros H. now rewrite <- saves_timeline, H. Qed.

Lemma set_loader_any (opt : options) w r w' :
  set_loader opt w = (r, w') ->
  exists new, log w' = log w ++ new /\ saves new = [].
Proof.
  unfold set_loader, bind, emit, ret, raise.
  destruct (String.eqb (dataset opt) "sp"); intros [= <- <-]; cbn [log];
    rewrite <- ?app_assoc; [eexists; split; reflexivity|].
  exists []. now rewrite app_nil_r.
Qed.

Lemma set_model_any (opt : options) w r w' :
  set_model rt opt w = (r, w') ->
  exists new, log w' = log w ++ new /\ saves new = [].
Proof.
  unfold set_model, select_model, construct, bind, emit, ret, raise,
    read_model. cbn [log dirs ticks]. intros H.
  repeat match type of H with
         | context [if ?b then _ else _] => destruct b
         end;
    injection H as _ <-; cbn [log]; rewrite <- ?app_assoc;
    eexists; split; reflexivity.
Qed.
End AnyOutcome.

(* ===================================================================== *)
(** ** Checkpoints (lines 203-221) *)
(* ===================================================================== *)

Lemma mod_zero_divide (e d : Z) : e mod d = 0 <-> (d | e).
Proof.
  destruct (Z.eq_dec d 0) as [->|Hd].
  - rewrite Z.mod_0_r. split.
    + intros ->. apply Z.divide_0_r.
    + intros H. now apply Z.divide_0_l.
  - now apply Z.mod_divide.
Qed.

(** C5.  In every run with [E] epochs and cadence [save_freq] the
    checkpoints are written in this order: for the epochs that ran to
    their end, an initial segment of [1..E], one checkpoint
    [<save_folder>/ckpt_epoch_<e>.pth] recording epoch [e] for each [e]
    that [save_freq] divides; and, when the run completes, every epoch
    has run to its end and one more checkpoint [<save_folder>/last.pth]
    recording epoch [E] follows.  There is no other checkpoint.  In a
    completed run the checkpoint of epoch [e] comes after the last step
    of epoch [e] and before epoch [e + 1] starts, and [last.pth] after
    the last epoch.  A run whose options are rejected writes nothing. *)
Theorem checkpoints_on_cadence rt cb (argv : list Argparse.arg) w r w' :
  main rt cb argv w = (r, w') ->
  exists new,
    log w' = log w ++ new /\
    (forall e w1,
        parse_option rt argv w = (Raise e, w1) -> r = Raise e /\ new = []) /\
    (forall opt w1,
        parse_option rt argv w = (Ok opt, w1) ->
        let ckpt e := (path_join (save_folder opt)
                                 ("ckpt_epoch_" ++ str_of_int e ++ ".pth"),
                       e) in
        let last := (path_join (save_folder opt) "last.pth", epochs opt) in
        let due e := e mod save_freq opt =? 0 in
        exists finished rest,
          range1 (epochs opt) = finished ++ rest /\
          saves new
          = map ckpt (filter due finished)
            ++ match r with Ok _ => [last] | Raise _ => [] end /\
          (forall e, In e (filter due (range1 (epochs opt)))
                     <-> 1 <= e <= epochs opt /\ (save_freq opt | e)) /\
          (r = Ok tt ->
           rest = [] /\
           timeline new
           = flat_map (epoch_timeline cb opt) (range1 (epochs opt))
             ++ [SaveModel (fst last) (snd last)])).
Proof.
  intros H.
  destruct (parse_option rt argv w) as [[opt|e] w1] eqn:Hp.
  2:{ rewrite (main_parse_raise rt cb _ _ _ _ Hp) in H.
      injection H as <- <-.
      destruct (parse_option_raise rt _ _ _ _ Hp) as (-> & _).
      exists []. rewrite app_nil_r. split; [reflexivity|].
      split; [|discriminate]. now intros e' w2 [= <- <-]. }
  assert (Hdue : forall e,
             In e (filter (fun e => e mod save_freq opt =? 0)
                          (range1 (epochs opt)))
             <-> 1 <= e <= epochs opt /\ (save_freq opt | e)).
  { intros e.
    now rewrite filter_In, range1_spec, Z.eqb_eq, mod_zero_divide. }
  destruct (parse_option_log rt _ _ _ _ Hp) as (n1 & L1 & Q1).
  pose proof (quiet_setup _ (makedirs_off_timeline _ Q1)) as S1.
  revert H. unfold main, bind at 1. rewrite Hp. unfold bind at 1.
  destruct (set_loader opt w1) as [[ld|e] w2] eqn:Hl;
    destruct (set_loader_any _ _ _ _ Hl) as (n2 & L2 & S2).
  2:{ intros [= <- <-]. exists (n1 ++ n2).
      rewrite L2, L1, <- app_assoc. split; [reflexivity|].
      split; [discriminate|]. intros opt' w1' [= <- <-]. cbv zeta.
      exists [], (range1 (epochs opt)).
      rewrite saves_app, S1, S2. split; [reflexivity|].
      split; [reflexivity|]. split; [exact Hdue|discriminate]. }
  unfold bind at 1.
  destruct (set_model rt opt w2) as [[[m criterion]|e] w3] eqn:Hm;
    destruct (set_model_any _ _ _ _ _ Hm) as (n3 & L3 & S3).
  2:{ intros [= <- <-]. exists (n1 ++ n2 ++ n3).
      rewrite L3, L2, L1, <- !app_assoc. split; [reflexivity|].
      split; [discriminate|]. intros opt' w1' [= <- <-]. cbv zeta.
      exists [], (range1 (epochs opt)).
      rewrite !saves_app, S1, S2, S3. split; [reflexivity|].
      split; [reflexivity|]. split; [exact Hdue|discriminate]. }
  unfold bind at 1, emit. unfold bind at 1.
  destruct (epoch_loop rt cb opt ld criterion _ _ _) as [[t|e] w4] eqn:He;
    destruct (epoch_loop_any _ _ _ _ _ _ _ _ _ _ He)
      as (n4 & fin & rest & L4 & Hr & Hrest & S4); cbn [log] in L4.
  - unfold bind, emit, ret. intros [= <- <-]. cbn [log].
    exists (n1 ++ n2 ++ n3 ++ [NewLogger (tb_folder opt)] ++ n4
               ++ [SaveModel (last_file opt) (epochs opt)]).
    rewrite L4, L3, L2, L1, <- !app_assoc. split; [reflexivity|].
    split; [discriminate|]. intros opt' w1' [= <- <-]. cbv zeta.
    exists fin, rest. split; [exact Hr|].
    rewrite !saves_app, S1, S2, S3, S4. split; [reflexivity|].
    split; [exact Hdue|]. intros _. split; [now apply (Hrest t)|].
    assert (Hmain : main rt cb argv w
                    = (Ok tt, logged w4 [SaveModel (last_file opt)
                                                   (epochs opt)])).
    { unfold main, bind at 1. rewrite Hp. unfold bind at 1. rewrite Hl.
      unfold bind at 1. rewrite Hm. unfold bind at 1, emit.
      unfold bind at 1. rewrite He. reflexivity. }
    destruct (main_inv rt cb _ _ _ Hmain) as (o & w0 & new' & Hp' & L' & T' & _).
    rewrite Hp in Hp'. injection Hp' as <- <-.
    cbn [log logged] in L'. rewrite L4, L3, L2, L1, <- !app_assoc in L'.
    apply app_inv_head in L'. rewrite L'. exact T'.
  - intros [= <- <-].
    exists (n1 ++ n2 ++ n3 ++ [NewLogger (tb_folder opt)] ++ n4).
    rewrite L4, L3, L2, L1, <- !app_assoc. split; [reflexivity|].
    split; [discriminate|]. intros opt' w1' [= <- <-]. cbv zeta.
    exists fin, rest. split; [exact Hr|].
    rewrite !saves_app, S1, S2, S3, S4, app_nil_r.
    split; [reflexivity|]. split; [exact Hdue|discriminate].
Qed.

Lemma checkpoints_on_cadence_witness :
  exists w' opt w1 new,
    main Sample.rt Sample.cb
         [Argparse.Opt "epochs" "3"; Argparse.Opt "save_freq" "2"]
         Sample.w0 = (Ok tt, w') /\
    parse_option Sample.rt
         [Argparse.Opt "epochs" "3"; Argparse.Opt "save_freq" "2"]
         Sample.w0 = (Ok opt, w1) /\
    log w' = log Sample.w0 ++ new /\
    saves new
    = map (fun e => (path_join (save_folder opt)
                               ("ckpt_epoch_" ++ str_of_int e ++ ".pth"),
                     e))
          (filter (fun e => e mod save_freq opt =? 0) (range1 (epochs opt)))
      ++ [(path_join (save_folder opt) "last.pth", epochs opt)] /\
    map snd (saves (log w')) = [2; 3].
Proof.
  destruct (main Sample.rt Sample.cb
              [Argparse.Opt "epochs" "3"; Argparse.Opt "save_freq" "2"]
              Sample.w0) as [r w'] eqn:E.
  assert (Hr : r = Ok tt /\ map snd (saves (log w')) = [2; 3]).
  { vm_compute in E. injection E as <- <-. split; reflexivity. }
  destruct Hr as (-> & Hs).
  destruct (parse_option Sample.rt
              [Argparse.Opt "epochs" "3"; Argparse.Opt "save_freq" "2"]
              Sample.w0) as [o w1] eqn:Ep.
  assert (Ho : exists opt, o = Ok opt).
  { vm_compute in Ep. injection Ep as <- _. eexists. reflexivity. }
  destruct Ho as (opt & ->).
  destruct (checkpoints_on_cadence Sample.rt Sample.cb _ _ _ _ E)
    as (new & L & _ & H).
  destruct (H opt w1 Ep) as (fin & rest & Hr & S & _ & Hc).
  destruct (Hc eq_refl) as (-> & _). rewrite app_nil_r in Hr. subst fin.
  exists w', opt, w1, new. repeat split; assumption.
Defined.

(* ===================================================================== *)
(** ** The meters of [train] (lines 148-150) *)
(* ===================================================================== *)






Lemma concat_split_round_trip_witness :
  let t := {| the_model := bare CustomCNN; params := [4%float];
              lr := 0.05%float |} in
  let v1 := [[1%float]; [2%float]] in
  let v2 := [[3%float]; [5%float]] in
  split (cat v1 v2) 2 2 = Ok (v1, v2) /\
  paired_features Sample.cb t (v1, v2) [0; 1]
  = Ok (pairs (map (map (fun x => (x * 4)%float)) v1)
              (map (map (fun x => (x * 4)%float)) v2)).
Proof.
  intros t v1 v2.
  destruct (concat_split_round_trip Sample.cb t v1 v2 [0; 1] 2
              eq_refl eq_refl eq_refl) as (Hs & _ & He).
  split; [exact Hs|].
  exact (proj2 (He (map (fun x => (x * 4)%float)) (fun xs => eq_refl))).
Defined.

Lemma loss_dispatch_witness :
  exists opt w',
    parse_option Sample.rt [Argparse.Opt "method" "SimCLR"] Sample.w0
      = (Ok opt, w') /\
    forall criterion features labels,
      compute_loss Sample.cb opt criterion features labels
      = Ok (criterion_call Sample.cb criterion features None, None).
Proof.
  destruct (parse_option Sample.rt [Argparse.Opt "method" "SimCLR"] Sample.w0)
    as [r w'] eqn:E.
  assert (Hr : exists opt, r = Ok opt /\ method opt = "SimCLR").
  { vm_compute in E. injection E as <- _. eexists. split; reflexivity. }
  destruct Hr as (opt & -> & Hm). exists opt, w'. split; [reflexivity|].
  destruct (loss_dispatch Sample.rt Sample.cb _ _ _ _ E)
    as (used & [[Hs _]|[_ ->]] & Hc & _).
  - rewrite Hm in Hs. discriminate Hs.
  - exact Hc.
Defined.

(* ===================================================================== *)
(** ** Further properties of [parse_option] *)
(* ===================================================================== *)

Section ParseOptionMore.
Variable rt : runtime.




End ParseOptionMore.


Section ParseOptionOk.
Variable rt : runtime.

(** A successful [parse_option], in full: the options it returns and the
    world it leaves. *)
Lemma parse_option_ok_full (argv : list Argparse.arg) w opt w' :
  parse_option rt argv w = (Ok opt, w') ->
  exists ns wm nm fr we to w1,
    Argparse.parse_args rt argv = Ok ns /\
    warmup_setup rt ns
      (if Argparse.cosine ns
       then (base_model_name rt ns ++ "_cosine")%string
       else base_model_name rt ns) = Ok (wm, nm, fr, we, to) /\
    method opt = Argparse.method ns /\
    dataset opt = Argparse.dataset ns /\
    model opt = Argparse.model ns /\
    learning_rate opt = Argparse.learning_rate ns /\
    weight_decay opt = Argparse.weight_decay ns /\
    batch_size opt = Argparse.batch_size ns /\
    num_workers opt = Argparse.num_workers ns /\
    temp opt = Argparse.temp ns /\
    trial opt = Argparse.trial ns /\
    cosine opt = Argparse.cosine ns /\
    data_folder opt = match Argparse.data_folder ns with
                      | None => "./datasets/"
                      | Some d => d
                      end /\
    warm opt = wm /\ model_name opt = nm /\
    warmup_from opt = fr /\ warm_epochs opt = we /\ warmup_to opt = to /\
    tb_folder opt
    = path_join ("./save/newSupCon/" ++ dataset opt ++ "_tensorboard")%string
                nm /\
    save_folder opt
    = path_join ("./save/newSupCon/" ++ dataset opt ++ "_models")%string nm /\
    ensure_dir (tb_folder opt) w = (Ok tt, w1) /\
    ensure_dir (save_folder opt) w1 = (Ok tt, w') /\
    forall v,
      parse_option rt argv v
      = (do _ <- ensure_dir (tb_folder opt);
         do _ <- ensure_dir (save_folder opt);
         ret opt) v.
Proof.
  unfold parse_option, bind at 1 2 3 4, lift. intros H.
  destruct (Argparse.parse_args rt argv) as [ns|] eqn:Hp; [|discriminate].
  destruct (check_required ns) as [[]|] eqn:Hc; [|discriminate].
  destruct (int_list _) as [l|] eqn:Hl; [|discriminate].
  destruct (warmup_setup rt ns _) as [[[[[wm nm] fr] we] to]|] eqn:Hw;
    [|discriminate].
  exists ns, wm, nm, fr, we, to.
  unfold bind at 1 in H.
  destruct (ensure_dir_ok (path_join ("./save/newSupCon/" ++
              Argparse.dataset ns ++ "_tensorboard")%string nm) w)
    as (w1 & E1 & _).
  rewrite E1 in H. unfold bind at 1 in H.
  destruct (ensure_dir_ok (path_join ("./save/newSupCon/" ++
              Argparse.dataset ns ++ "_models")%string nm) w1)
    as (w2 & E2 & _).
  rewrite E2 in H. unfold ret in H. injection H as <- <-.
  exists w1. cbn [method dataset model learning_rate weight_decay batch_size
                  num_workers temp trial cosine data_folder warm model_name
                  warmup_from warm_epochs warmup_to tb_folder save_folder].
  repeat split; try assumption; try reflexivity.
  intros v. unfold parse_option, bind, lift.
  rewrite ?Hp, ?Hc, ?Hl, ?Hw. reflexivity.
Qed.

Lemma ensure_dir_dirs (p : string) w w' :
  ensure_dir p w = (Ok tt, w') ->
  Argparse.mem p (dirs w') = true /\
  (forall q, Argparse.mem q (dirs w) = true ->
             Argparse.mem q (dirs w') = true).
Proof.
  unfold ensure_dir, bind, isdir, ret, makedirs.
  destruct (Argparse.mem p (dirs w)) eqn:E; intros [= <-].
  - now split.
  - cbn [dirs]. unfold Argparse.mem. cbn [existsb].
    rewrite String.eqb_refl. split; [reflexivity|].
    intros q Hq. unfold Argparse.mem in Hq. rewrite Hq. apply orb_true_r.
Qed.

Lemma ensure_dir_present (p : string) w :
  Argparse.mem p (dirs w) = true -> ensure_dir p w = (Ok tt, w).
Proof.
  intros H. unfold ensure_dir, bind, isdir, ret. now rewrite H.
Qed.

(** X2.  After a successful [parse_option] both output folders exist,
    and parsing the same command line again returns the same options
    and changes nothing: no directory is created twice. *)
Theorem parse_option_idempotent (argv : list Argparse.arg) w opt w' :
  parse_option rt argv w = (Ok opt, w') ->
  Argparse.mem (tb_folder opt) (dirs w') = true /\
  Argparse.mem (save_folder opt) (dirs w') = true /\
  parse_option rt argv w' = (Ok opt, w').
Proof.
  intros H.
  destruct (parse_option_ok_full _ _ _ _ H)
    as (ns & wm & nm & fr & we & to & w1 & _ & _ & _ & _ & _ & _ & _ & _ & _
        & _ & _ & _ & _ & _ & _ & _ & _ & _ & _ & _ & E1 & E2 & Hv).
  destruct (ensure_dir_dirs _ _ _ E1) as (M1 & _).
  destruct (ensure_dir_dirs _ _ _ E2) as (M2 & K2).
  pose proof (K2 _ M1) as M1'.
  split; [exact M1'|]. split; [exact M2|].
  rewrite Hv. unfold bind.
  now rewrite (ensure_dir_present _ _ M1'), (ensure_dir_present _ _ M2).
Qed.
End ParseOptionOk.

Lemma parse_option_idempotent_witness :
  exists opt w',
    parse_option Sample.rt [Argparse.Flag "cosine"] Sample.w0 = (Ok opt, w') /\
    parse_option Sample.rt [Argparse.Flag "cosine"] w' = (Ok opt, w').
Proof.
  destruct (parse_option Sample.rt [Argparse.Flag "cosine"] Sample.w0)
    as [r w'] eqn:E.
  assert (Hr : exists opt, r = Ok opt).
  { vm_compute in E. injection E as <- _. eexists. reflexivity. }
  destruct Hr as (opt & ->). exists opt, w'. split; [reflexivity|].
  exact (proj2 (proj2 (parse_option_idempotent Sample.rt _ _ _ _ E))).
Defined.

Lemma append_assoc (a b c : string) :
  ((a ++ b) ++ c)%string = (a ++ b ++ c)%string.
Proof. induction a as [|x a IH]; cbn; [reflexivity|]. now rewrite IH. Qed.

Lemma append_empty_r (a : string) : (a ++ "")%string = a.
Proof. induction a as [|x a IH]; cbn; [reflexivity|]. now rewrite IH. Qed.

Lemma ends_with_slash_append (a s : string) :
  s <> "" -> ends_with_slash (a ++ s) = ends_with_slash s.
Proof.
  intros Hs. induction a as [|x a IH]; [reflexivity|].
  cbn [append ends_with_slash]. rewrite <- IH.
  destruct (a ++ s)%string eqn:E; [|reflexivity].
  destruct a; [cbn in E; contradiction|discriminate E].
Qed.

Lemma path_join_under (d tail name : string) :
  tail <> "" -> ends_with_slash tail = false ->
  starts_with_slash name = false ->
  path_join ("./save/newSupCon/" ++ d ++ tail)%string name
  = ("./save/newSupCon/" ++ d ++ tail ++ "/" ++ name)%string.
Proof.
  intros Ht He Hn. unfold path_join. rewrite Hn.
  change ("./save/newSupCon/" ++ d ++ tail)%string
    with (String "." ("/save/newSupCon/" ++ d ++ tail))%string at 1.
  cbn [String.eqb orb].
  assert (Hd : (d ++ tail)%string <> "").
  { destruct d; [exact Ht|discriminate]. }
  rewrite (ends_with_slash_append "./save/newSupCon/" _ Hd).
  rewrite (ends_with_slash_append d _ Ht), He.
  now rewrite !append_assoc.
Qed.

Section OutputFolders.
Variable rt : runtime.

Lemma warmup_setup_name ns name wm nm fr we to :
  warmup_setup rt ns name = Ok (wm, nm, fr, we, to) ->
  nm = (name ++ (if wm then "_warm" else ""))%string.
Proof.
  unfold warmup_setup.
  destruct (if Argparse.batch_size ns >? 256 then true else Argparse.warm ns).
  - destruct (if Argparse.cosine ns then _ else _); [|discriminate].
    cbn. now intros [= <- <- _ _ _].
  - intros [= <- <- _ _ _]. now rewrite append_empty_r.
Qed.

(** X3.  The model name is the stem of line 64 followed by [_cosine]
    when cosine annealing is on and then [_warm] when warmup is on
    (also when it was forced on by the batch size), and the two output
    folders are [./save/newSupCon/<dataset>_tensorboard/<model_name>]
    and [./save/newSupCon/<dataset>_models/<model_name>], whatever
    strings the options hold. *)
Theorem output_folders (argv : list Argparse.arg) w opt w' :
  parse_option rt argv w = (Ok opt, w') ->
  model_name opt
  = (name_stem rt opt ++ (if cosine opt then "_cosine" else "")
       ++ (if warm opt then "_warm" else ""))%string /\
  tb_folder opt
  = ("./save/newSupCon/" ++ dataset opt ++ "_tensorboard/"
       ++ model_name opt)%string /\
  save_folder opt
  = ("./save/newSupCon/" ++ dataset opt ++ "_models/"
       ++ model_name opt)%string.
Proof.
  intros H.
  destruct (parse_option_ok_full rt _ _ _ _ H)
    as (ns & wm & nm & fr & we & to & w1 & _ & Hw & Hme & Hd & Hmo & Hlr
        & Hwd & Hb & _ & Hte & Htr & Hc & _ & Hwm & Hnm & _ & _ & _
        & Htb & Hsf & _).
  assert (Hstem : base_model_name rt ns = name_stem rt opt).
  { unfold base_model_name, name_stem.
    now rewrite Hme, Hd, Hmo, Hlr, Hwd, Hb, Hte, Htr. }
  assert (Hname : model_name opt
                  = (name_stem rt opt ++ (if cosine opt then "_cosine" else "")
                       ++ (if warm opt then "_warm" else ""))%string).
  { rewrite Hnm, (warmup_setup_name _ _ _ _ _ _ _ Hw), Hstem, Hc, Hwm.
    destruct (Argparse.cosine ns).
    - now rewrite append_assoc.
    - reflexivity. }
  assert (Hstart : starts_with_slash nm = false).
  { rewrite <- Hnm, Hname. reflexivity. }
  split; [exact Hname|]. split.
  - rewrite Htb, Hnm.
    rewrite (path_join_under _ "_tensorboard" nm); try easy.
  - rewrite Hsf, Hnm.
    rewrite (path_join_under _ "_models" nm); try easy.
Qed.

(** X4.  The three warmup attributes exist exactly when warmup is on:
    with warmup off none of [warmup_from], [warm_epochs] and
    [warmup_to] is set, with warmup on all three are. *)
Theorem warmup_attributes_iff_warm (argv : list Argparse.arg) w opt w' :
  parse_option rt argv w = (Ok opt, w') ->
  (warmup_from opt <> None <-> warm opt = true) /\
  (warm_epochs opt <> None <-> warm opt = true) /\
  (warmup_to opt <> None <-> warm opt = true).
Proof.
  intros H.
  destruct (parse_option_inv rt _ _ _ _ H)
    as (ns & name & _ & _ & _ & Hw & _).
  destruct (warmup_setup_inv _ _ _ _ _ _ _ _ Hw) as (_ & Hon & Hoff).
  destruct (warm opt).
  - destruct (Hon eq_refl) as (-> & -> & v & -> & _).
    repeat split; intros; congruence.
  - destruct (Hoff eq_refl) as (-> & -> & ->).
    repeat split; intros; congruence.
Qed.
End OutputFolders.

Lemma output_folders_witness :
  exists opt w',
    parse_option Sample.rt
      [Argparse.Opt "batch_size" "512"; Argparse.Flag "cosine";
       Argparse.Opt "trial" "a/b"] Sample.w0 = (Ok opt, w') /\
    save_folder opt
    = ("./save/newSupCon/" ++ dataset opt ++ "_models/"
         ++ model_name opt)%string /\
    save_folder opt
    = "./save/newSupCon/sp_models/tranSupCon_sp_CustomCNN_lr_0.05_decay_0.0001_bsz_512_temp_0.07_trial_a/b_cosine_warm".
Proof.
  destruct (parse_option Sample.rt
              [Argparse.Opt "batch_size" "512"; Argparse.Flag "cosine";
               Argparse.Opt "trial" "a/b"] Sample.w0) as [r w'] eqn:E.
  assert (Hr : exists opt, r = Ok opt /\
             save_folder opt
             = "./save/newSupCon/sp_models/tranSupCon_sp_CustomCNN_lr_0.05_decay_0.0001_bsz_512_temp_0.07_trial_a/b_cosine_warm").
  { vm_compute in E. injection E as <- _. eexists. split; reflexivity. }
  destruct Hr as (opt & -> & Hs). exists opt, w'. split; [reflexivity|].
  destruct (output_folders Sample.rt _ _ _ _ E) as (_ & _ & Hf).
  split; [exact Hf|exact Hs].
Defined.

Lemma warmup_attributes_iff_warm_witness :
  exists opt w',
    parse_option Sample.rt [] Sample.w0 = (Ok opt, w') /\
    warm opt = false /\ warmup_to opt = None.
Proof.
  destruct (parse_option Sample.rt [] Sample.w0) as [r w'] eqn:E.
  assert (Hr : exists opt, r = Ok opt /\ warm opt = false).
  { vm_compute in E. injection E as <- _. eexists. split; reflexivity. }
  destruct Hr as (opt & -> & Hwm). exists opt, w'.
  split; [reflexivity|]. split; [exact Hwm|].
  destruct (warmup_attributes_iff_warm Sample.rt _ _ _ _ E) as (_ & _ & Ht).
  destruct (warmup_to opt) as [v|]; [|reflexivity].
  assert (Hn : Some v <> None) by discriminate.
  apply Ht in Hn. rewrite Hwm in Hn. discriminate Hn.
Defined.

(* ===================================================================== *)
(** ** Option errors, one by one *)
(* ===================================================================== *)

Section OptionErrors.
Variable rt : runtime.

(** X5.  With cosine annealing and warmup both on (by [--warm] or by a
    batch size above 256), [--epochs 0] makes [parse_option] raise
    [ZeroDivisionError] at line 80, before any directory is created,
    provided the options before it are in order and [lr_decay_rate ** 3]
    does not overflow. *)
Theorem cosine_warmup_zero_epochs (argv : list Argparse.arg) ns l p w :
  Argparse.parse_args rt argv = Ok ns ->
  check_required ns = Ok tt ->
  int_list (split_comma (Argparse.lr_decay_epochs ns)) = Ok l ->
  Argparse.cosine ns = true ->
  Argparse.warm ns = true \/ Argparse.batch_size ns > 256 ->
  float_pow rt (Argparse.lr_decay_rate ns) 3 = Some p ->
  Argparse.epochs ns = 0 ->
  parse_option rt argv w = (Raise ZeroDivisionError, w).
Proof.
  intros Hp Hc Hl Hcos Hwarm Hpow He.
  unfold parse_option, bind, lift. rewrite Hp, Hc, Hl.
  unfold warmup_setup, cosine_warmup_to.
  assert (Hw : (if Argparse.batch_size ns >? 256 then true
                else Argparse.warm ns) = true).
  { destruct Hwarm as [->|Hb]; [now destruct (_ >? _)|].
    apply Z.gt_lt, Z.gtb_lt in Hb. now rewrite Hb. }
  rewrite Hw, Hcos, Hpow, He. reflexivity.
Qed.


(** X7.  With dataset [rf], leaving out any of [--data_folder],
    [--mean] and [--std] fails the assertion of line 54, before any
    directory is created. *)
Theorem rf_requires_folder_mean_std (argv : list Argparse.arg) ns w :
  Argparse.parse_args rt argv = Ok ns ->
  Argparse.dataset ns = "rf" ->
  Argparse.data_folder ns = None \/ Argparse.mean ns = None
  \/ Argparse.std ns = None ->
  parse_option rt argv w = (Raise AssertionError, w).
Proof.
  intros Hp Hd Hmiss. unfold parse_option, bind, lift. rewrite Hp.
  unfold check_required. rewrite Hd. cbn [Argparse.mem existsb String.eqb
                                           Ascii.eqb Bool.eqb orb].
  destruct (Argparse.data_folder ns), (Argparse.mean ns), (Argparse.std ns);
    try reflexivity.
  destruct Hmiss as [H|[H|H]]; discriminate H.
Qed.
End OptionErrors.

Lemma cosine_warmup_zero_epochs_witness :
  parse_option Sample.rt
    [Argparse.Flag "warm"; Argparse.Flag "cosine"; Argparse.Opt "epochs" "0"]
    Sample.w0 = (Raise ZeroDivisionError, Sample.w0).
Proof.
  destruct (Argparse.parse_args Sample.rt
              [Argparse.Flag "warm"; Argparse.Flag "cosine";
               Argparse.Opt "epochs" "0"]) as [ns|] eqn:E.
  - apply (cosine_warmup_zero_epochs Sample.rt _ ns [700; 800; 900]
             (0.1 * 0.1 * 0.1)%float Sample.w0 E);
      vm_compute in E; injection E as <-;
      try reflexivity; try (left; reflexivity).
  - vm_compute in E. discriminate E.
Defined.


Lemma rf_requires_folder_mean_std_witness :
  parse_option Sample.rt
    [Argparse.Opt "dataset" "rf"; Argparse.Opt "data_folder" "./rf/"]
    Sample.w0 = (Raise AssertionError, Sample.w0).
Proof.
  destruct (Argparse.parse_args Sample.rt
              [Argparse.Opt "dataset" "rf"; Argparse.Opt "data_folder" "./rf/"])
    as [ns|] eqn:E.
  - apply (rf_requires_folder_mean_std Sample.rt _ ns Sample.w0 E);
      vm_compute in E; injection E as <-;
      [reflexivity|right; left; reflexivity].
  - vm_compute in E. discriminate E.
Defined.

(* ===================================================================== *)
(** ** Further properties of [set_loader] and [set_model] *)
(* ===================================================================== *)

Section SetupMore.
Variable rt : runtime.

Lemma network_named_registry (name : string) :
  In name registry <-> network_named name <> None.
Proof.
  unfold network_named, registry. cbn [In].
  destruct (String.eqb_spec name "CustomCNN") as [->|H1].
  { split; [discriminate|auto]. }
  destruct (String.eqb_spec name "CustomCNNmini") as [->|H2].
  { split; [discriminate|auto]. }
  destruct (String.eqb_spec name "CustomCNNminidrop") as [->|H3].
  { split; [discriminate|auto]. }
  split; [|congruence]. intros [E|[E|[E|[]]]]; congruence.
Qed.

Lemma select_model_sp (opt : options) w :
  dataset opt = "sp" ->
  select_model opt w
  = match network_named (model opt) with
    | Some n => (Ok (Some (bare n)), logged w [NewModel n])
    | None => (Ok None, logged w [Print ("没找到模型" ++ model opt)])
    end.
Proof.
  intros Hd. unfold select_model, network_named. rewrite Hd.
  cbn [String.eqb Ascii.eqb Bool.eqb].
  destruct (String.eqb (model opt) "CustomCNN"); [reflexivity|].
  destruct (String.eqb (model opt) "CustomCNNmini"); [reflexivity|].
  destruct (String.eqb (model opt) "CustomCNNminidrop"); reflexivity.
Qed.

Lemma set_model_known (opt : options) w n :
  dataset opt = "sp" ->
  syncBN opt = false -> network_named (model opt) = Some n ->
  set_model rt opt w
  = (Ok ({| net := n;
            data_parallel :=
              cuda_is_available rt && (cuda_device_count rt >? 1);
            on_cuda := cuda_is_available rt |},
         {| temperature := temp opt;
            criterion_on_cuda := cuda_is_available rt |}),
     logged w [NewModel n; NewCriterion (temp opt)]).
Proof.
  intros Hd Hs Hn. unfold set_model, bind at 1.
  rewrite (select_model_sp _ w Hd), Hn.
  unfold bind, emit, ret, read_model, logged, bare. cbn [log dirs ticks].
  rewrite Hs, <- app_assoc. cbn [app].
  destruct (cuda_is_available rt); [|reflexivity].
  destruct (cuda_device_count rt >? 1); reflexivity.
Qed.


Lemma set_loader_sp (opt : options) w :
  dataset opt = "sp" ->
  set_loader opt w
  = (Ok (loader_of opt),
     logged w [NewDataset (data_folder opt); NewDataLoader (loader_of opt)]).
Proof.
  intros Hd. unfold set_loader, bind, emit, ret, logged, loader_of.
  rewrite Hd. cbn [String.eqb Ascii.eqb Bool.eqb log dirs ticks].
  now rewrite <- app_assoc.
Qed.

(** X8.  For the dataset [sp], [set_model] returns exactly when
    [--syncBN] is off and the model name is in the registry.  It then
    returns the encoder of that name, moved to CUDA when CUDA is
    available and wrapped for data parallelism when more than one
    device is, with a criterion at temperature [temp] on the same
    device, having built one model and one criterion. *)
Theorem set_model_returns_iff (opt : options) w :
  dataset opt = "sp" ->
  ((exists r w', set_model rt opt w = (Ok r, w'))
   <-> syncBN opt = false /\ In (model opt) registry) /\
  (forall n,
      syncBN opt = false -> network_named (model opt) = Some n ->
      set_model rt opt w
      = (Ok ({| net := n;
                data_parallel :=
                  cuda_is_available rt && (cuda_device_count rt >? 1);
                on_cuda := cuda_is_available rt |},
             {| temperature := temp opt;
                criterion_on_cuda := cuda_is_available rt |}),
         logged w [NewModel n; NewCriterion (temp opt)])).
Proof.
  intros Hd. split; [|intros n Hs Hn; now apply set_model_known]. split.
  - intros (r & w' & H). rewrite network_named_registry.
    revert H. unfold set_model, bind at 1.
    rewrite (select_model_sp _ w Hd).
    destruct (network_named (model opt)) as [n|];
      unfold bind, emit, ret, raise, read_model; cbn [log dirs ticks];
      destruct (syncBN opt); try discriminate.
    + intros _. split; [reflexivity|discriminate].
    + destruct (cuda_is_available rt); [|discriminate].
      destruct (cuda_device_count rt >? 1); discriminate.
  - intros [Hs Hin]. apply network_named_registry in Hin.
    destruct (network_named (model opt)) as [n|] eqn:Hn; [|congruence].
    rewrite (set_model_known _ w n Hd Hs Hn). eauto.
Qed.

(** X9.  With [--syncBN], [set_model] raises [NameError] on [apex],
    which the script never imports, for every dataset and model, known
    or not, once the model selection and the criterion are done. *)
Theorem syncBN_always_fails (opt : options) w :
  syncBN opt = true ->
  exists m w1,
    select_model opt w = (Ok m, w1) /\
    set_model rt opt w
    = (Raise (NameError "apex"), logged w1 [NewCriterion (temp opt)]).
Proof.
  intros Hs.
  assert (Hsel : exists m w1, select_model opt w = (Ok m, w1)).
  { unfold select_model, construct, bind, emit, ret.
    repeat match goal with
           | |- context [if ?b then _ else _] => destruct b
           end; eauto. }
  destruct Hsel as (m & w1 & Hsel). exists m, w1. split; [exact Hsel|].
  unfold set_model, bind at 1. rewrite Hsel.
  unfold bind, emit, raise. cbn [log dirs ticks]. now rewrite Hs.
Qed.

End SetupMore.

Lemma set_model_returns_iff_witness :
  exists opt w,
    parse_option Sample.rt [Argparse.Opt "model" "CustomCNNmini"] Sample.w0
      = (Ok opt, w) /\
    set_model Sample.rt opt w
    = (Ok ({| net := CustomCNNmini; data_parallel := false;
              on_cuda := false |},
           {| temperature := temp opt; criterion_on_cuda := false |}),
       logged w [NewModel CustomCNNmini; NewCriterion (temp opt)]).
Proof.
  destruct (parse_option Sample.rt [Argparse.Opt "model" "CustomCNNmini"]
                         Sample.w0) as [r w] eqn:E.
  assert (Hr : exists opt, r = Ok opt /\ dataset opt = "sp"
                           /\ syncBN opt = false
                           /\ model opt = "CustomCNNmini").
  { vm_compute in E. injection E as <- _. eexists. repeat split. }
  destruct Hr as (opt & -> & Hd & Hs & Hm). exists opt, w.
  split; [reflexivity|].
  apply (proj2 (set_model_returns_iff Sample.rt opt w Hd) CustomCNNmini Hs).
  now rewrite Hm.
Defined.

Lemma syncBN_always_fails_witness :
  exists opt w w',
    parse_option Sample.rt [Argparse.Flag "syncBN"] Sample.w0 = (Ok opt, w) /\
    set_model Sample.rt opt w = (Raise (NameError "apex"), w').
Proof.
  destruct (parse_option Sample.rt [Argparse.Flag "syncBN"] Sample.w0)
    as [r w] eqn:E.
  assert (Hr : exists opt, r = Ok opt /\ syncBN opt = true).
  { vm_compute in E. injection E as <- _. eexists. split; reflexivity. }
  destruct Hr as (opt & -> & Hs).
  destruct (syncBN_always_fails Sample.rt opt w Hs) as (m & w1 & _ & H).
  exists opt, w. eexists. split; [reflexivity|exact H].
Defined.


(* ===================================================================== *)
(** ** Further properties of [train] *)
(* ===================================================================== *)

Section TrainMore.
Variable rt : runtime.
Variable cb : collab.

Lemma pairs_length {A : Type} (a b : list A) :
  List.length a = List.length b -> List.length (pairs a b) = List.length a.
Proof.
  intros E. unfold pairs. rewrite length_map, length_combine, E.
  apply Nat.min_id.
Qed.

Lemma pairs_rows {A : Type} (a b : list A) :
  Forall (fun row => List.length row = 2%nat) (pairs a b).
Proof.
  unfold pairs. apply Forall_forall. intros row Hr.
  apply in_map_iff in Hr as (p & <- & _). reflexivity.
Qed.

Lemma paired_features_mismatch (t : trainer) (v1 v2 : list image)
      (labels : list Z) :
  List.length (forward cb t (cat v1 v2))
  <> (List.length labels + List.length labels)%nat ->
  exists msg,
    paired_features cb t (v1, v2) labels = Raise (RuntimeError msg).
Proof.
  intros Hne. unfold paired_features, split. cbn [fst snd].
  destruct (Nat.eqb_spec (List.length labels + List.length labels)
                         (List.length (forward cb t (cat v1 v2)))) as [E|_];
    [congruence|]. cbn. eauto.
Qed.

(** X11.  The features of a step are paired exactly when the encoder
    returns twice as many rows as there are labels; otherwise the split
    of line 165 raises [RuntimeError].  When they are paired, the result
    has one row per label, each row holds two embeddings, and the first
    and second entries of the rows are the first and the second half of
    the encoder's output. *)
Theorem paired_features_shape (t : trainer) (v1 v2 : list image)
        (labels : list Z) :
  let out := forward cb t (cat v1 v2) in
  let bsz := List.length labels in
  (List.length out <> (bsz + bsz)%nat ->
   exists msg,
     paired_features cb t (v1, v2) labels = Raise (RuntimeError msg)) /\
  (List.length out = (bsz + bsz)%nat ->
   exists f1 f2,
     paired_features cb t (v1, v2) labels = Ok (pairs f1 f2) /\
     out = f1 ++ f2 /\
     List.length f1 = bsz /\ List.length f2 = bsz /\
     List.length (pairs f1 f2) = bsz /\
     Forall (fun row => List.length row = 2%nat) (pairs f1 f2)).
Proof.
  intros out bsz. split.
  - apply paired_features_mismatch.
  - intros He.
    destruct (split_sizes out bsz bsz He) as (f1 & f2 & Hs).
    destruct (split_inv _ _ _ _ _ Hs) as (Hf & H1 & H2).
    exists f1, f2. split; [|repeat split; try assumption].
    + apply paired_features_ok; [exact Hf|exact H1|exact H2].
    + rewrite pairs_length; congruence.
    + apply pairs_rows.
Qed.

Lemma update_one (m : AverageMeter) (x : float) :
  update m x 1 = Ok {| sum := (sum m + x * 1)%float; count := count m + 1 |}.
Proof. reflexivity. Qed.

(** X12.  A batch for which the encoder does not return twice as many
    rows as there are labels stops the step with [RuntimeError] right
    after the batch was fetched: no loss is computed and the optimizer
    does not step. *)
Theorem mismatched_batch_stops_step opt criterion epoch total idx
        (v1 v2 : list image) (labels : list Z) st w :
  List.length
    (forward cb (warmup_learning_rate cb opt epoch idx total (st_trainer st))
             (cat v1 v2))
  <> (List.length labels + List.length labels)%nat ->
  exists msg w',
    train_step rt cb opt criterion epoch total idx ((v1, v2), labels) st w
    = (Raise (RuntimeError msg), w') /\
    log w' = log w ++ [Fetch epoch idx].
Proof.
  intros Hne.
  destruct (paired_features_mismatch _ v1 v2 labels Hne) as (msg & Hp).
  exists msg. unfold train_step, bind, lift, emit, time_now.
  cbn [log dirs ticks]. rewrite update_one, Hp. eexists. split; reflexivity.
Qed.

(** X13.  With [--print_freq 0] no step completes.  A step whose
    features, loss and loss-meter update succeed has by then taken the
    optimizer step, and raises [ZeroDivisionError] at line 181. *)
Theorem print_freq_zero_stops_step opt criterion epoch total idx
        (b : batch) st w :
  print_freq opt = 0 ->
  (exists e w',
      train_step rt cb opt criterion epoch total idx b st w = (Raise e, w')) /\
  (forall features loss used m,
      paired_features
        cb (warmup_learning_rate cb opt epoch idx total (st_trainer st))
        (fst b) (snd b) = Ok features ->
      compute_loss cb opt criterion features (snd b) = Ok (loss, used) ->
      update (losses (st_meters st)) loss (Z.of_nat (List.length (snd b)))
      = Ok m ->
      exists w',
        train_step rt cb opt criterion epoch total idx b st w
        = (Raise ZeroDivisionError, w') /\
        log w' = log w ++ [Fetch epoch idx; OptimizerStep epoch idx]).
Proof.
  intros Hz. destruct b as [images labels]. cbn [fst snd]. split.
  - destruct (train_step rt cb opt criterion epoch total idx
                         (images, labels) st w) as [[st'|e] w'] eqn:H;
      [|eauto].
    exfalso. revert H.
    unfold train_step, bind, lift, emit, time_now, py_mod.
    cbn [log dirs ticks]. rewrite Hz, !update_one. cbn [Z.eqb].
    destruct (paired_features cb _ images labels); [|discriminate].
    destruct (compute_loss cb opt criterion _ labels) as [[loss used]|];
      [|discriminate].
    destruct (update (losses (st_meters st)) loss _); discriminate.
  - intros features loss used m Hp Hc Hu.
    unfold train_step, bind, lift, emit, time_now, py_mod.
    cbn [log dirs ticks]. rewrite Hz, !update_one, Hp, Hc, Hu. cbn [Z.eqb].
    eexists. split; [reflexivity|]. cbn [log]. now rewrite <- app_assoc.
Qed.
End TrainMore.

Section TrainCourse.
Variable rt : runtime.
Variable cb : collab.

Lemma compute_loss_used opt criterion features labels loss used :
  compute_loss cb opt criterion features labels = Ok (loss, used) ->
  used = labels_used opt labels.
Proof.
  unfold compute_loss, labels_used.
  destruct (String.eqb (method opt) "SupCon"); [now intros [= _ <-]|].
  destruct (String.eqb (method opt) "SimCLR"); [now intros [= _ <-]|].
  discriminate.
Qed.

(** A step that completes, event by event. *)
Lemma train_step_course opt criterion epoch total idx b st w st' w' :
  train_step rt cb opt criterion epoch total idx b st w = (Ok st', w') ->
  exists new,
    log w' = log w ++ new /\
    map without_meters new = step_events opt epoch total idx /\
    st_trainer st' = step_trainer cb opt epoch total idx b (st_trainer st).
Proof.
  destruct b as [images labels].
  unfold train_step, bind, lift, emit, time_now, py_mod, step_events,
    step_trainer.
  cbn [log dirs ticks fst snd]. rewrite !update_one. intros H.
  destruct (paired_features cb _ images labels); [|discriminate].
  destruct (compute_loss cb opt criterion _ labels) as [[loss used]|] eqn:Hc;
    [|discriminate].
  apply compute_loss_used in Hc. subst used.
  destruct (update (losses (st_meters st)) loss _); [|discriminate].
  destruct (print_freq opt =? 0); [discriminate|].
  destruct ((Z.of_nat idx + 1) mod print_freq opt =? 0); unfold ret in H;
    cbn in H; injection H as <- <-; cbn [log st_trainer];
    rewrite <- ?app_assoc; eexists; repeat split; reflexivity.
Qed.

Lemma train_loop_course opt criterion epoch total bs :
  forall idx st w st' w',
    train_loop rt cb opt criterion epoch total bs idx st w = (Ok st', w') ->
    exists new,
      log w' = log w ++ new /\
      map without_meters new
      = flat_map (step_events opt epoch total) (seq idx (List.length bs)) /\
      st_trainer st' = run_steps cb opt epoch total bs idx (st_trainer st).
Proof.
  induction bs as [|b rest IH]; intros idx st w st' w'; cbn [train_loop].
  - unfold ret. intros [= <- <-]. exists []. now rewrite app_nil_r.
  - unfold bind.
    destruct (train_step rt cb opt criterion epoch total idx b st w)
      as [[st1|] w1] eqn:Hs; [|discriminate].
    intros Hl.
    destruct (train_step_course _ _ _ _ _ _ _ _ _ _ Hs) as (n1 & L1 & M1 & T1).
    destruct (IH _ _ _ _ _ Hl) as (n2 & L2 & M2 & T2).
    exists (n1 ++ n2).
    rewrite L2, L1, <- app_assoc, map_app, M1, M2, T2, T1.
    repeat split.
Qed.

Lemma train_course ld criterion t epoch opt w a t' ms w' :
  train rt cb ld criterion t epoch opt w = (Ok (a, t', ms), w') ->
  let bs := batches_of cb ld epoch in
  exists new,
    log w' = log w ++ new /\
    map without_meters new
    = flat_map (step_events opt epoch (List.length bs))
               (seq 0 (List.length bs)) /\
    t' = run_steps cb opt epoch (List.length bs) bs 0 t.
Proof.
  intros H bs. revert H. unfold train, bind at 1, time_now. fold bs.
  intros H. unfold bind at 1 in H.
  destruct (train_loop rt cb opt criterion epoch _ bs 0 _ _)
    as [[st|] w1] eqn:Hl; [|discriminate].
  unfold bind, lift, ret in H.
  destruct (avg _ _); [|discriminate]. injection H as _ <- _ <-.
  destruct (train_loop_course _ _ _ _ _ _ _ _ _ _ Hl) as (new & L & M & T).
  exists new. cbn [log st_trainer] in *. now repeat split.
Qed.

(** X14.  A call of [train] that returns has logged, for each batch of
    the loader in order, that the batch was fetched and then that the
    optimizer stepped, followed by a progress line exactly when the
    number of batches done is a multiple of [print_freq]; the progress
    line carries that number and the length of the loader.  It has
    logged nothing else. *)
Theorem train_logs_each_step ld criterion t epoch opt w a t' ms w' :
  train rt cb ld criterion t epoch opt w = (Ok (a, t', ms), w') ->
  let n := List.length (batches_of cb ld epoch) in
  exists new,
    log w' = log w ++ new /\
    map without_meters new = flat_map (step_events opt epoch n) (seq 0 n).
Proof.
  intros H n. destruct (train_course _ _ _ _ _ _ _ _ _ _ H) as (new & L & M & _).
  now exists new.
Qed.

(** X15.  The trainer that a completed epoch leaves is the trainer it
    was given after [adjust_learning_rate] for this epoch, once, and
    then, for each batch in order, [warmup_learning_rate] with the
    index of the batch and the length of the loader followed by the
    backward pass and optimizer step on the two views, with the labels
    for [SupCon] and without them otherwise. *)
Theorem epoch_updates_trainer opt ld criterion epoch t w t' w' :
  epoch_body rt cb opt ld criterion epoch t w = (Ok t', w') ->
  let bs := batches_of cb ld epoch in
  t' = run_steps cb opt epoch (List.length bs) bs 0
                 (adjust_learning_rate cb opt t epoch).
Proof.
  intros H bs.
  destruct (epoch_body_inv rt cb _ _ _ _ _ _ _ _ H)
    as (a & ms & w0 & w1 & new & Ht & _).
  destruct (train_course _ _ _ _ _ _ _ _ _ _ Ht) as (_ & _ & _ & T).
  exact T.
Qed.
End TrainCourse.

(* ===================================================================== *)
(** ** Further properties of [main] *)
(* ===================================================================== *)

Section MainMore.
Variable rt : runtime.
Variable cb : collab.

Lemma main_after_setup (argv : list Argparse.arg) w opt w1 n :
  parse_option rt argv w = (Ok opt, w1) ->
  dataset opt = "sp" -> syncBN opt = false ->
  network_named (model opt) = Some n ->
  main rt cb argv w
  = (do _ <- epoch_loop rt cb opt (loader_of opt)
               {| temperature := temp opt;
                  criterion_on_cuda := cuda_is_available rt |}
               (range1 (epochs opt)) (set_optimizer cb opt (placed rt n));
     do _ <- emit (SaveModel (last_file opt) (epochs opt));
     ret tt)
      (logged w1 [NewDataset (data_folder opt); NewDataLoader (loader_of opt);
                  NewModel n; NewCriterion (temp opt);
                  NewLogger (tb_folder opt)]).
Proof.
  intros Hp Hd Hs Hn. unfold main, bind at 1. rewrite Hp.
  unfold bind at 1. rewrite (set_loader_sp _ w1 Hd).
  unfold bind at 1. rewrite (set_model_known rt _ _ n Hd Hs Hn).
  unfold bind at 1, emit, logged. cbn [log dirs ticks].
  rewrite <- !app_assoc. reflexivity.
Qed.


End MainMore.

Lemma in_train_in_epoch_loop (l : list event) :
  forallb in_train l = true -> forallb in_epoch_loop l = true.
Proof.
  induction l as [|e l IH]; [reflexivity|]. cbn [forallb].
  intros H. apply andb_prop in H as [He Hl]. rewrite (IH Hl).
  destruct e; try discriminate He; reflexivity.
Qed.

Lemma in_epoch_loop_builds_nothing (l : list event) :
  forallb in_epoch_loop l = true -> models_built l = [].
Proof.
  induction l as [|e l IH]; [reflexivity|]. cbn [forallb].
  intros H. apply andb_prop in H as [He Hl].
  destruct e; try discriminate He; cbn; now apply IH.
Qed.

Lemma in_train_logs_nothing (l : list event) :
  forallb in_train l = true -> logged_series l = [] /\ reported_rates l = [].
Proof.
  induction l as [|e l IH]; [now split|]. cbn [forallb].
  intros H. apply andb_prop in H as [He Hl]. destruct (IH Hl) as [I1 I2].
  destruct e; try discriminate He; cbn; now split.
Qed.

Lemma in_setup_logs_nothing (l : list event) :
  forallb in_setup l = true ->
  logged_series l = [] /\ reported_rates l = [] /\ saves l = [].
Proof.
  induction l as [|e l IH]; [now repeat split|]. cbn [forallb].
  intros H. apply andb_prop in H as [He Hl].
  destruct (IH Hl) as (I1 & I2 & I3).
  destruct e; try discriminate He; cbn; now repeat split.
Qed.

Lemma makedirs_in_setup (l : list event) :
  forallb is_makedirs l = true -> forallb in_setup l = true.
Proof.
  induction l as [|e l IH]; [reflexivity|]. cbn [forallb].
  intros H. apply andb_prop in H as [He Hl]. rewrite (IH Hl).
  destruct e; try discriminate He; reflexivity.
Qed.

Lemma logged_series_app (a b : list event) :
  logged_series (a ++ b) = logged_series a ++ logged_series b.
Proof. apply flat_map_app. Qed.

Lemma reported_rates_app (a b : list event) :
  reported_rates (a ++ b) = reported_rates a ++ reported_rates b.
Proof. apply flat_map_app. Qed.

Lemma models_built_app (a b : list event) :
  models_built (a ++ b) = models_built a ++ models_built b.
Proof. apply flat_map_app. Qed.

Section EpochLoopMore.
Variable rt : runtime.
Variable cb : collab.

Lemma epoch_body_events opt ld criterion epoch t w r w' :
  epoch_body rt cb opt ld criterion epoch t w = (r, w') ->
  exists new, log w' = log w ++ new /\ forallb in_epoch_loop new = true.
Proof.
  unfold epoch_body, bind at 1, emit. unfold bind at 1, time_now.
  unfold bind at 1. intros H.
  destruct (train rt cb ld criterion _ epoch opt _) as [[[[a t1] ms]|e] w1]
    eqn:Ht; destruct (train_any _ _ _ _ _ _ _ _ _ _ Ht) as (n1 & L1 & Q1);
    apply in_train_in_epoch_loop in Q1; cbn [log] in L1.
  - unfold bind, time_now, emit, lift, py_mod, ret in H.
    cbn [log dirs ticks] in H.
    destruct (save_freq opt =? 0);
      [|destruct (epoch mod save_freq opt =? 0)];
      injection H as _ <-; cbn [log]; rewrite L1, <- ?app_assoc;
      eexists; (split; [reflexivity|]);
      rewrite !forallb_app, Q1; reflexivity.
  - injection H as _ <-. rewrite L1, <- app_assoc. eexists.
    split; [reflexivity|]. rewrite forallb_app, Q1. reflexivity.
Qed.

Lemma epoch_loop_events opt ld criterion es :
  forall t w r w',
    epoch_loop rt cb opt ld criterion es t w = (r, w') ->
    exists new, log w' = log w ++ new /\ forallb in_epoch_loop new = true.
Proof.
  induction es as [|e es IH]; intros t w r w'; cbn [epoch_loop].
  - unfold ret. intros [= <- <-]. exists []. now rewrite app_nil_r.
  - unfold bind.
    destruct (epoch_body rt cb opt ld criterion e t w) as [[t1|x] w1] eqn:Hb;
      intros Hl; destruct (epoch_body_events _ _ _ _ _ _ _ _ Hb)
        as (n1 & L1 & Q1).
    + destruct (IH _ _ _ _ Hl) as (n2 & L2 & Q2). exists (n1 ++ n2).
      now rewrite L2, L1, <- app_assoc, forallb_app, Q1, Q2.
    + injection Hl as _ <-. now exists n1.
Qed.

(** A completed epoch hands the logger its loss and then its learning
    rate, the rate of the trainer it leaves. *)
Lemma epoch_body_logged opt criterion epoch t w t' w' :
  epoch_body rt cb opt (loader_of opt) criterion epoch t w = (Ok t', w') ->
  exists new,
    log w' = log w ++ new /\
    logged_series new = [("loss", epoch); ("learning_rate", epoch)] /\
    reported_rates new = [(epoch, lr t')] /\
    t' = epoch_trainer cb opt epoch t.
Proof.
  intros H.
  assert (Ht' : t' = epoch_trainer cb opt epoch t).
  { destruct (epoch_body_inv rt cb _ _ _ _ _ _ _ _ H)
      as (a & ms & w0 & w1 & new & Ht & _).
    destruct (train_course rt cb _ _ _ _ _ _ _ _ _ _ Ht) as (_ & _ & _ & T).
    exact T. }
  revert H. unfold epoch_body, bind at 1, emit. unfold bind at 1, time_now.
  unfold bind at 1. intros H.
  destruct (train rt cb _ criterion _ epoch opt _) as [[[[a t1] ms]|e] w1]
    eqn:Ht; [|discriminate].
  destruct (train_any _ _ _ _ _ _ _ _ _ _ Ht) as (n1 & L1 & Q1).
  destruct (in_train_logs_nothing _ Q1) as (S1 & R1). cbn [log] in L1.
  unfold bind, time_now, emit, lift, py_mod, ret in H.
  cbn [log dirs ticks] in H.
  destruct (save_freq opt =? 0); [discriminate|].
  destruct (epoch mod save_freq opt =? 0);
    injection H as <- <-; cbn [log]; rewrite L1, <- ?app_assoc;
    eexists; (split; [reflexivity|]);
    rewrite !logged_series_app, !reported_rates_app, S1, R1;
    repeat split; assumption.
Qed.

Lemma epoch_loop_logged opt criterion es :
  forall t w t' w',
    epoch_loop rt cb opt (loader_of opt) criterion es t w = (Ok t', w') ->
    exists new,
      log w' = log w ++ new /\
      logged_series new
      = flat_map (fun e => [("loss", e); ("learning_rate", e)]) es /\
      reported_rates new
      = map (fun p => (fst p, lr (snd p))) (trainers cb opt es t).
Proof.
  induction es as [|e es IH]; intros t w t' w'; cbn [epoch_loop].
  - unfold ret. intros [= <- <-]. exists []. now rewrite app_nil_r.
  - unfold bind.
    destruct (epoch_body rt cb opt _ criterion e t w) as [[t1|] w1] eqn:Hb;
      [|discriminate].
    intros Hl.
    destruct (epoch_body_logged _ _ _ _ _ _ _ Hb) as (n1 & L1 & S1 & R1 & T1).
    destruct (IH _ _ _ _ Hl) as (n2 & L2 & S2 & R2).
    exists (n1 ++ n2).
    rewrite L2, L1, <- app_assoc, logged_series_app, reported_rates_app,
      S1, S2, R1, R2.
    cbn [flat_map trainers map fst snd app]. rewrite <- T1. repeat split.
Qed.
End EpochLoopMore.

Section MainSeries.
Variable rt : runtime.
Variable cb : collab.

Lemma set_loader_returns (opt : options) w l w' :
  set_loader opt w = (Ok l, w') -> dataset opt = "sp".
Proof.
  unfold set_loader, bind, raise.
  destruct (String.eqb_spec (dataset opt) "sp"); [auto|discriminate].
Qed.

Lemma set_model_returns (opt : options) w r w' :
  dataset opt = "sp" ->
  set_model rt opt w = (Ok r, w') ->
  syncBN opt = false /\ exists n, network_named (model opt) = Some n.
Proof.
  intros Hd. unfold set_model, bind at 1.
  rewrite (select_model_sp _ w Hd).
  destruct (network_named (model opt)) as [n|];
    unfold bind, emit, ret, raise, read_model; cbn [log dirs ticks];
    destruct (syncBN opt); try discriminate.
  - intros _. eauto.
  - destruct (cuda_is_available rt); [|discriminate].
    destruct (cuda_device_count rt >? 1); discriminate.
Qed.

(** A run that completes has passed every check of the setup. *)
Lemma main_ok_setup (argv : list Argparse.arg) w w' :
  main rt cb argv w = (Ok tt, w') ->
  exists opt w1 n,
    parse_option rt argv w = (Ok opt, w1) /\
    dataset opt = "sp" /\ syncBN opt = false /\
    network_named (model opt) = Some n.
Proof.
  unfold main, bind at 1.
  destruct (parse_option rt argv w) as [[opt|] w1] eqn:Hp; [|discriminate].
  unfold bind at 1.
  destruct (set_loader opt w1) as [[ld|] w2] eqn:Hl; [|discriminate].
  pose proof (set_loader_returns _ _ _ _ Hl) as Hd.
  unfold bind at 1.
  destruct (set_model rt opt w2) as [[mc|] w3] eqn:Hm; [|discriminate].
  destruct (set_model_returns _ _ _ _ Hd Hm) as (Hs & n & Hn).
  intros _. now exists opt, w1, n.
Qed.

(** X18.  A run that completes has handed the logger, for each epoch of
    [1..E] in order, one [loss] and then one [learning_rate] and
    nothing else; the learning rate logged for an epoch is the rate of
    the optimizer as that epoch's last step left it, starting from the
    optimizer that [set_optimizer] built for the selected model. *)
Theorem logger_series_per_epoch (argv : list Argparse.arg) w w' :
  main rt cb argv w = (Ok tt, w') ->
  exists opt w1 n new,
    parse_option rt argv w = (Ok opt, w1) /\
    network_named (model opt) = Some n /\
    log w' = log w ++ new /\
    logged_series new
    = flat_map (fun e => [("loss", e); ("learning_rate", e)])
               (range1 (epochs opt)) /\
    reported_rates new
    = map (fun p => (fst p, lr (snd p)))
          (trainers cb opt (range1 (epochs opt))
                    (set_optimizer cb opt (placed rt n))).
Proof.
  intros H.
  destruct (main_ok_setup _ _ _ H) as (opt & w1 & n & Hp & Hd & Hs & Hn).
  exists opt, w1, n.
  rewrite (main_after_setup rt cb _ _ _ _ _ Hp Hd Hs Hn) in H.
  unfold bind at 1 in H.
  destruct (epoch_loop rt cb opt _ _ _ _ _) as [[t|] w4] eqn:He;
    [|discriminate].
  unfold bind, emit, ret in H. injection H as <-.
  destruct (epoch_loop_logged rt cb _ _ _ _ _ _ _ He) as (n4 & L4 & S4 & R4).
  destruct (parse_option_log rt _ _ _ _ Hp) as (n1 & L1 & Q1).
  destruct (in_setup_logs_nothing _ (makedirs_in_setup _ Q1))
    as (S1 & R1 & _).
  cbn [log logged] in L4 |- *. eexists.
  split; [exact Hp|]. split; [exact Hn|].
  rewrite L4, L1, <- !app_assoc. split; [reflexivity|].
  rewrite !logged_series_app, !reported_rates_app, S1, R1, S4, R4.
  cbn. rewrite !app_nil_r. split; reflexivity.
Qed.

(** The checkpoints of a run whose options were accepted, whatever its
    outcome. *)
Lemma main_saves_any (argv : list Argparse.arg) w opt w1 r w' :
  parse_option rt argv w = (Ok opt, w1) ->
  main rt cb argv w = (r, w') ->
  exists new finished rest,
    log w' = log w ++ new /\
    range1 (epochs opt) = finished ++ rest /\
    saves new
    = map (fun e => (ckpt_file opt e, e))
          (filter (fun e => e mod save_freq opt =? 0) finished)
      ++ match r with
         | Ok _ => [(last_file opt, epochs opt)]
         | Raise _ => []
         end.
Proof.
  intros Hp.
  destruct (parse_option_log rt _ _ _ _ Hp) as (n1 & L1 & Q1).
  pose proof (quiet_setup _ (makedirs_off_timeline _ Q1)) as S1.
  unfold main, bind at 1. rewrite Hp. unfold bind at 1.
  destruct (set_loader opt w1) as [[ld|e] w2] eqn:Hl;
    destruct (set_loader_any _ _ _ _ Hl) as (n2 & L2 & S2).
  2:{ intros [= <- <-]. exists (n1 ++ n2), [], (range1 (epochs opt)).
      rewrite L2, L1, <- app_assoc, saves_app, S1, S2. now repeat split. }
  unfold bind at 1.
  destruct (set_model rt opt w2) as [[[m criterion]|e] w3] eqn:Hm;
    destruct (set_model_any _ _ _ _ _ Hm) as (n3 & L3 & S3).
  2:{ intros [= <- <-]. exists (n1 ++ n2 ++ n3), [], (range1 (epochs opt)).
      rewrite L3, L2, L1, <- !app_assoc, !saves_app, S1, S2, S3.
      now repeat split. }
  unfold bind at 1, emit. unfold bind at 1.
  destruct (epoch_loop rt cb opt ld criterion _ _ _) as [[t|e] w4] eqn:He;
    destruct (epoch_loop_any _ _ _ _ _ _ _ _ _ _ He)
      as (n4 & fin & rest & L4 & Hr & _ & S4); cbn [log] in L4.
  - unfold bind, emit, ret. intros [= <- <-]. cbn [log].
    exists (n1 ++ n2 ++ n3 ++ [NewLogger (tb_folder opt)] ++ n4
               ++ [SaveModel (last_file opt) (epochs opt)]), fin, rest.
    rewrite L4, L3, L2, L1, <- !app_assoc, !saves_app, S1, S2, S3, S4.
    split; [reflexivity|]. split; [exact Hr|]. cbn. now rewrite ?app_nil_r.
  - intros [= <- <-].
    exists (n1 ++ n2 ++ n3 ++ [NewLogger (tb_folder opt)] ++ n4), fin, rest.
    rewrite L4, L3, L2, L1, <- !app_assoc, !saves_app, S1, S2, S3, S4.
    split; [reflexivity|]. split; [exact Hr|]. cbn. now rewrite ?app_nil_r.
Qed.

(** X19.  With [--save_freq 0] a run with at least one epoch never
    completes, and it writes no checkpoint at all, neither a periodic
    one nor [last.pth]. *)
Theorem save_freq_zero_never_saves (argv : list Argparse.arg) w opt w1 :
  parse_option rt argv w = (Ok opt, w1) ->
  save_freq opt = 0 ->
  1 <= epochs opt ->
  exists e w' new,
    main rt cb argv w = (Raise e, w') /\
    log w' = log w ++ new /\
    saves new = [].
Proof.
  intros Hp Hz He.
  destruct (main rt cb argv w) as [[[]|e] w'] eqn:Hm.
  - destruct (main_inv rt cb _ _ _ Hm) as (o & w0 & new & Hp' & _ & _ & Hsf).
    rewrite Hp in Hp'. injection Hp' as <- <-. now destruct (Hsf He).
  - destruct (main_saves_any _ _ _ _ _ _ Hp Hm)
      as (new & fin & rest & L & Hr & S).
    exists e, w', new. split; [reflexivity|]. split; [exact L|].
    rewrite S, app_nil_r.
    assert (Hfin : forall x, In x fin -> 1 <= x).
    { intros x Hx. apply (range1_spec (epochs opt)). rewrite Hr.
      apply in_or_app. now left. }
    clear Hr S. induction fin as [|x fin IH]; [reflexivity|].
    cbn [filter].
    destruct (Z.eqb_spec (x mod save_freq opt) 0) as [E|_].
    + rewrite Hz, Z.mod_0_r in E.
      specialize (Hfin x (or_introl eq_refl)). lia.
    + apply IH. intros y Hy. apply Hfin. now right.
Qed.

(** X20.  Whatever its outcome, a run builds at most one encoder, and
    only one of the three of the registry: the [SupConResNet] branch of
    [set_model] is never taken, because [set_loader] has by then
    rejected every dataset other than [sp]. *)
Theorem only_registry_models_built (argv : list Argparse.arg) w r w' :
  main rt cb argv w = (r, w') ->
  exists new,
    log w' = log w ++ new /\
    (models_built new = [] \/
     exists n,
       In n [CustomCNN; CustomCNNmini; CustomCNNminidrop] /\
       models_built new = [n]) /\
    forall name, ~ In (SupConResNet name) (models_built new).
Proof.
  intros H.
  assert (Hcore : exists new,
             log w' = log w ++ new /\
             (models_built new = [] \/
              exists n,
                In n [CustomCNN; CustomCNNmini; CustomCNNminidrop] /\
                models_built new = [n])).
  { revert H. unfold main, bind at 1.
    destruct (parse_option rt argv w) as [[opt|e] w1] eqn:Hp.
    2:{ intros [= <- <-].
        destruct (parse_option_raise rt _ _ _ _ Hp) as (-> & _).
        exists []. rewrite app_nil_r. now split; [|left]. }
    destruct (parse_option_log rt _ _ _ _ Hp) as (n1 & L1 & Q1).
    assert (B1 : models_built n1 = []).
    { clear L1. induction n1 as [|x n1 IH]; [reflexivity|].
      cbn [forallb] in Q1. apply andb_prop in Q1 as [Hx Hn].
      destruct x; try discriminate Hx. cbn. now apply IH. }
    unfold bind at 1.
    destruct (set_loader opt w1) as [[ld|e] w2] eqn:Hl.
    2:{ intros [= <- <-]. revert Hl. unfold set_loader, bind, raise.
        destruct (String.eqb (dataset opt) "sp"); [discriminate|].
        intros [= _ <-]. exists n1. split; [exact L1|now left]. }
    pose proof (set_loader_returns _ _ _ _ Hl) as Hd.
    rewrite (set_loader_sp _ w1 Hd) in Hl. injection Hl as _ <-.
    unfold bind at 1.
    assert (Hsel : network_named (model opt) = None \/
                   exists n, network_named (model opt) = Some n /\
                             In n [CustomCNN; CustomCNNmini;
                                   CustomCNNminidrop]).
    { unfold network_named.
      repeat match goal with
             | |- context [if ?b then _ else _] => destruct b
             end; [right; eexists; split; [reflexivity|cbn; tauto]..
                  |now left]. }
    destruct (set_model rt opt _) as [[[m criterion]|e] w3] eqn:Hm.
    - destruct (set_model_returns _ _ _ _ Hd Hm) as (Hs & n & Hn).
      rewrite (set_model_known rt _ _ n Hd Hs Hn) in Hm.
      injection Hm as _ _ <-.
      unfold bind at 1, emit. unfold bind at 1.
      destruct (epoch_loop rt cb opt _ criterion _ _ _) as [[t|e] w4] eqn:He;
        destruct (epoch_loop_events _ _ _ _ _ _ _ _ _ _ He) as (n4 & L4 & Q4);
        pose proof (in_epoch_loop_builds_nothing _ Q4) as B4;
        cbn [log logged] in L4;
        [unfold bind, emit, ret|]; intros [= <- <-]; cbn [log];
        rewrite L4, L1, <- !app_assoc; eexists; (split; [reflexivity|]);
        rewrite !models_built_app, B1, B4; right; exists n;
        (split; [|reflexivity]);
        (destruct Hsel as [E|(n' & E & Hin)];
         [congruence|replace n with n' by congruence; exact Hin]).
    - intros [= <- <-]. revert Hm. unfold set_model, bind at 1.
      rewrite (select_model_sp _ _ Hd).
      destruct Hsel as [E|(n & E & Hin)]; rewrite E;
        unfold bind, emit, ret, raise, read_model, logged;
        cbn [log dirs ticks]; intros Hm;
        repeat match type of Hm with
               | context [if ?b then _ else _] => destruct b
               end;
        injection Hm as _ <-; cbn [log]; rewrite L1, <- !app_assoc;
        eexists; (split; [reflexivity|]);
        rewrite !models_built_app, B1; cbn [models_built flat_map app];
        first [left; reflexivity
              |right; exists n; split; [exact Hin|reflexivity]]. }
  destruct Hcore as (new & L & Hb). exists new.
  split; [exact L|]. split; [exact Hb|].
  intros name Hin. destruct Hb as [E|(n & Hn & E)]; rewrite E in Hin.
  - destruct Hin.
  - destruct Hin as [->|[]].
    destruct Hn as [F|[F|[F|[]]]]; discriminate F.
Qed.
End MainSeries.

(* ===================================================================== *)
(** ** Decimal numerals: [str] and [int] *)
(* ===================================================================== *)


(* ===================================================================== *)
(** ** Decimal numerals: [str] and [int] *)
(* ===================================================================== *)

Lemma digits_value_numeral (d : Decimal.uint) :
  forall (d' : Decimal.uint) (b : bool),
    d <> Decimal.Nil \/ b = true ->
    digits_value (numeral_chars d)
                 (Z.of_N (DecimalPos.Unsigned.of_lu d')) b
    = Some (Z.of_N (DecimalPos.Unsigned.of_lu (Decimal.revapp d d'))).
Proof.
  unfold numeral_chars.
  induction d as [|d IH|d IH|d IH|d IH|d IH|d IH|d IH|d IH|d IH|d IH];
    intros d' b Hb;
    [destruct Hb as [Hb| ->]; [contradiction|reflexivity]|..];
    cbn [DecimalString.NilEmpty.string_of_uint list_ascii_of_string
         digits_value Decimal.revapp];
    match goal with
    | |- context [digit_value ?c] =>
        change (digit_value c) with (Some (Z.of_nat (nat_of_ascii c) - 48))
    end; cbv beta iota;
    match goal with
    | |- digits_value _ ?acc true = Some (Z.of_N (DecimalPos.Unsigned.of_lu
                                           (Decimal.revapp d ?e))) =>
        replace acc with (Z.of_N (DecimalPos.Unsigned.of_lu e));
        [apply IH; now right|]
    end;
    cbn [DecimalPos.Unsigned.of_lu]; rewrite ?N2Z.inj_add, N2Z.inj_mul;
    cbn [nat_of_ascii]; vm_compute (Z.of_nat _); lia.
Qed.

Lemma numeral_chars_no_space (d : Decimal.uint) :
  Forall (fun c => is_space c = false) (numeral_chars d).
Proof.
  unfold numeral_chars.
  induction d; cbn [DecimalString.NilEmpty.string_of_uint
                      list_ascii_of_string]; constructor; auto.
Qed.

Lemma lstrip_no_space (l : list ascii) :
  Forall (fun c => is_space c = false) l -> lstrip l = l.
Proof. intros [|c l' Hc _]; [reflexivity|]. cbn. now rewrite Hc. Qed.

Lemma strip_no_space (l : list ascii) :
  Forall (fun c => is_space c = false) l -> strip l = l.
Proof.
  intros H. unfold strip. rewrite (lstrip_no_space _ H).
  rewrite lstrip_no_space by now apply Forall_rev.
  apply rev_involutive.
Qed.

Lemma int_of_numeral (d : Decimal.uint) :
  d <> Decimal.Nil ->
  int_of_str (DecimalString.NilEmpty.string_of_uint d)
  = Some (Z.of_N (Pos.of_uint d)) /\
  int_of_str (String "-" (DecimalString.NilEmpty.string_of_uint d))
  = Some (- Z.of_N (Pos.of_uint d)).
Proof.
  intros Hd.
  pose proof (digits_value_numeral d Decimal.Nil false (or_introl Hd)) as Hv.
  change (Decimal.revapp d Decimal.Nil) with (Decimal.rev d) in Hv.
  rewrite <- DecimalPos.Unsigned.of_uint_alt in Hv.
  change (Z.of_N (DecimalPos.Unsigned.of_lu Decimal.Nil)) with 0 in Hv.
  pose proof (numeral_chars_no_space d) as Hs. split.
  - unfold int_of_str. fold (numeral_chars d). rewrite (strip_no_space _ Hs).
    rewrite <- Hv. unfold numeral_chars.
    destruct d; try contradiction; reflexivity.
  - unfold int_of_str. cbn [list_ascii_of_string]. fold (numeral_chars d).
    rewrite strip_no_space by (constructor; [reflexivity|exact Hs]).
    cbv beta iota. now rewrite Hv.
Qed.

(** [int(str(n)) = n]. *)
Lemma int_of_str_of_int (n : Z) : int_of_str (str_of_int n) = Some n.
Proof.
  destruct n as [|p|p]; [reflexivity|..]; unfold str_of_int;
    cbn [Z.to_int DecimalString.NilZero.string_of_int];
    pose proof (DecimalPos.Unsigned.to_uint_nonnil p) as Hn;
    destruct (int_of_numeral _ Hn) as (Hpos & Hneg);
    rewrite DecimalPos.Unsigned.of_to in Hpos, Hneg;
    unfold DecimalString.NilZero.string_of_uint;
    destruct (Pos.to_uint p) eqn:E; try contradiction;
    first [exact Hpos|exact Hneg].
Qed.

Lemma str_of_int_comma_free (n : Z) : comma_free (str_of_int n) = true.
Proof.
  assert (H : forall d, comma_free (DecimalString.NilEmpty.string_of_uint d)
                        = true).
  { induction d; cbn; auto. }
  destruct n as [|p|p]; [reflexivity|..]; unfold str_of_int;
    cbn [Z.to_int DecimalString.NilZero.string_of_int];
    unfold DecimalString.NilZero.string_of_uint;
    destruct (Pos.to_uint p) eqn:E; rewrite <- ?E; cbn; rewrite ?H;
    reflexivity.
Qed.

Lemma split_comma_aux_piece (p rest cur : string) :
  comma_free p = true ->
  split_comma_aux (p ++ rest) cur = split_comma_aux rest (cur ++ p).
Proof.
  revert cur. induction p as [|c p IH]; intros cur Hp.
  - now rewrite append_empty_r.
  - cbn in Hp. apply andb_prop in Hp as [Hc Hp].
    cbn [append split_comma_aux].
    destruct (Ascii.eqb c ","); [discriminate Hc|].
    rewrite (IH _ Hp), append_assoc. reflexivity.
Qed.

Lemma split_join_comma (pieces : list string) :
  pieces <> [] ->
  Forall (fun p => comma_free p = true) pieces ->
  split_comma (join_comma pieces) = pieces.
Proof.
  intros Hne H. unfold split_comma.
  induction H as [|p rest Hp Hrest IH]; [contradiction|].
  destruct rest as [|q rest'].
  - cbn [join_comma]. rewrite <- (append_empty_r p) at 1.
    now rewrite (split_comma_aux_piece p "" "" Hp).
  - change (join_comma (p :: q :: rest'))
      with (p ++ String "," (join_comma (q :: rest')))%string.
    rewrite (split_comma_aux_piece p _ "" Hp). cbn [append split_comma_aux].
    cbn [Ascii.eqb Bool.eqb]. f_equal. apply IH. discriminate.
Qed.

Lemma int_list_of_strs (l : list Z) :
  int_list (map str_of_int l) = Ok l.
Proof.
  induction l as [|n l IH]; [reflexivity|].
  cbn [map int_list]. now rewrite int_of_str_of_int, IH.
Qed.

Section MilestoneRoundTrip.
Variable rt : runtime.

(** X21.  Any non-empty list of ints, written in decimal and joined
    with commas as the value of [--lr_decay_epochs], is read back by
    [parse_option] as exactly that list: negative numbers and zero
    included, in the order given. *)
Theorem milestones_round_trip (argv : list Argparse.arg) w opt w'
        (l : list Z) :
  parse_option rt argv w = (Ok opt, w') ->
  l <> [] ->
  Argparse.last_value "lr_decay_epochs" argv
  = Some (join_comma (map str_of_int l)) ->
  lr_decay_epochs opt = l.
Proof.
  intros H Hne Hv.
  destruct (parse_option_inv rt _ _ _ _ H) as (ns & name & Hp & _ & Hl & _).
  destruct (parse_args_fields rt _ _ Hp) as (_ & _ & _ & Hf & _).
  rewrite Hf in Hl. unfold Argparse.str_value in Hl. rewrite Hv in Hl.
  rewrite split_join_comma, int_list_of_strs in Hl.
  - now injection Hl.
  - destruct l; [contradiction|discriminate].
  - apply Forall_forall. intros p Hin.
    apply in_map_iff in Hin as (n & <- & _). apply str_of_int_comma_free.
Qed.
End MilestoneRoundTrip.

Lemma milestones_round_trip_witness :
  exists opt w',
    parse_option Sample.rt [Argparse.Opt "lr_decay_epochs" "30,-5,0"]
                 Sample.w0 = (Ok opt, w') /\
    lr_decay_epochs opt = [30; -5; 0].
Proof.
  destruct (parse_option Sample.rt [Argparse.Opt "lr_decay_epochs" "30,-5,0"]
                         Sample.w0) as [r w'] eqn:E.
  assert (Hr : exists opt, r = Ok opt).
  { vm_compute in E. injection E as <- _. eexists. reflexivity. }
  destruct Hr as (opt & ->). exists opt, w'. split; [reflexivity|].
  apply (milestones_round_trip Sample.rt _ _ _ _ [30; -5; 0] E);
    [discriminate|reflexivity].
Defined.

(* ===================================================================== *)
(** ** Checkpoint files *)
(* ===================================================================== *)

Lemma append_cancel_l (a x y : string) :
  (a ++ x)%string = (a ++ y)%string -> x = y.
Proof.
  induction a as [|c a IH]; cbn; [auto|]. intros [= E]. now apply IH.
Qed.

Lemma length_append (a b : string) :
  String.length (a ++ b) = (String.length a + String.length b)%nat.
Proof. induction a as [|c a IH]; cbn; [reflexivity|]. now rewrite IH. Qed.

Lemma append_cancel_r (x y c : string) :
  (x ++ c)%string = (y ++ c)%string -> x = y.
Proof.
  revert y. induction x as [|a x IH]; intros [|b y] E; cbn in E.
  - reflexivity.
  - apply (f_equal String.length) in E. cbn in E.
    rewrite length_append in E. lia.
  - apply (f_equal String.length) in E. cbn in E.
    rewrite length_append in E. lia.
  - injection E as -> E. f_equal. now apply IH.
Qed.

Lemma path_join_relative (a b : string) :
  starts_with_slash b = false ->
  exists prefix, forall b',
      starts_with_slash b' = false -> path_join a b' = (prefix ++ b')%string.
Proof.
  intros _. unfold path_join.
  destruct (String.eqb a "" || ends_with_slash a)%bool.
  - exists a. intros b' ->. reflexivity.
  - exists (a ++ "/")%string. intros b' ->. now rewrite append_assoc.
Qed.

(** X22.  Checkpoints of different epochs go to different files, and no
    periodic checkpoint goes to the file of the final one: within a run
    [save_model] never overwrites a checkpoint it wrote earlier, whatever
    the save folder is. *)
Theorem checkpoint_files_distinct (opt : options) (e1 e2 : Z) :
  (path_join (save_folder opt) ("ckpt_epoch_" ++ str_of_int e1 ++ ".pth")
   = path_join (save_folder opt) ("ckpt_epoch_" ++ str_of_int e2 ++ ".pth")
   -> e1 = e2) /\
  path_join (save_folder opt) ("ckpt_epoch_" ++ str_of_int e1 ++ ".pth")
  <> path_join (save_folder opt) "last.pth".
Proof.
  destruct (path_join_relative (save_folder opt) "last.pth" eq_refl)
    as (prefix & Hj).
  rewrite !Hj by reflexivity. split.
  - intros E. apply append_cancel_l in E. cbn in E.
    injection E as E. apply append_cancel_r in E.
    apply (f_equal int_of_str) in E.
    rewrite !int_of_str_of_int in E. now injection E.
  - intros E. apply append_cancel_l in E. discriminate E.
Qed.

(* ===================================================================== *)
(** ** Sample runs of the further properties *)
(* ===================================================================== *)

Lemma mismatched_batch_stops_step_witness :
  exists opt w1 msg w',
    parse_option Sample.rt [] Sample.w0 = (Ok opt, w1) /\
    train_step Sample.rt Sample.cb opt
               {| temperature := temp opt; criterion_on_cuda := false |}
               1 1 0 (([[1%float]], [[1%float]]), [0; 1])
               {| st_trainer := set_optimizer Sample.cb opt (bare CustomCNN);
                  st_meters := fresh_meters; st_end := 0%float |} w1
    = (Raise (RuntimeError msg), w') /\
    log w' = log w1 ++ [Fetch 1 0].
Proof.
  destruct (parse_option Sample.rt [] Sample.w0) as [r w1] eqn:E.
  assert (Hr : exists opt, r = Ok opt).
  { vm_compute in E. injection E as <- _. eexists. reflexivity. }
  destruct Hr as (opt & ->). exists opt, w1.
  destruct (mismatched_batch_stops_step Sample.rt Sample.cb opt
              {| temperature := temp opt; criterion_on_cuda := false |}
              1 1 0 [[1%float]] [[1%float]] [0; 1]
              {| st_trainer := set_optimizer Sample.cb opt (bare CustomCNN);
                 st_meters := fresh_meters; st_end := 0%float |} w1)
    as (msg & w' & Hs & Hl).
  - cbn. discriminate.
  - exists msg, w'. split; [reflexivity|]. split; assumption.
Defined.

Lemma print_freq_zero_stops_step_witness :
  exists opt w1 e w',
    parse_option Sample.rt [Argparse.Opt "print_freq" "0"] Sample.w0
      = (Ok opt, w1) /\
    train_step Sample.rt Sample.cb opt
               {| temperature := temp opt; criterion_on_cuda := false |}
               1 1 0 (([[1%float]], [[1%float]]), [0])
               {| st_trainer := set_optimizer Sample.cb opt (bare CustomCNN);
                  st_meters := fresh_meters; st_end := 0%float |} w1
    = (Raise e, w').
Proof.
  destruct (parse_option Sample.rt [Argparse.Opt "print_freq" "0"] Sample.w0)
    as [r w1] eqn:E.
  assert (Hr : exists opt, r = Ok opt /\ print_freq opt = 0).
  { vm_compute in E. injection E as <- _. eexists. split; reflexivity. }
  destruct Hr as (opt & -> & Hz). exists opt, w1.
  destruct (proj1 (print_freq_zero_stops_step Sample.rt Sample.cb opt
              {| temperature := temp opt; criterion_on_cuda := false |}
              1 1 0 (([[1%float]], [[1%float]]), [0])
              {| st_trainer := set_optimizer Sample.cb opt (bare CustomCNN);
                 st_meters := fresh_meters; st_end := 0%float |} w1 Hz))
    as (e & w' & Hs).
  exists e, w'. split; [reflexivity|exact Hs].
Defined.

Lemma train_logs_each_step_witness :
  exists opt w1 r w' new,
    parse_option Sample.rt [Argparse.Opt "print_freq" "1"] Sample.w0
      = (Ok opt, w1) /\
    train Sample.rt Sample.cb (loader_of opt)
          {| temperature := temp opt; criterion_on_cuda := false |}
          (set_optimizer Sample.cb opt (bare CustomCNN)) 1 opt w1
    = (Ok r, w') /\
    log w' = log w1 ++ new /\
    map without_meters new
    = [Fetch 1 0; OptimizerStep 1 0; PrintProgress 1 1 1 fresh_meters].
Proof.
  destruct (parse_option Sample.rt [Argparse.Opt "print_freq" "1"] Sample.w0)
    as [o w1] eqn:E.
  assert (Ho : exists opt, o = Ok opt /\ print_freq opt = 1).
  { vm_compute in E. injection E as <- _. eexists. split; reflexivity. }
  destruct Ho as (opt & -> & Hpf).
  destruct (train Sample.rt Sample.cb (loader_of opt)
              {| temperature := temp opt; criterion_on_cuda := false |}
              (set_optimizer Sample.cb opt (bare CustomCNN)) 1 opt w1)
    as [r w'] eqn:Et.
  assert (Hr : exists a t' ms, r = Ok (a, t', ms)).
  { vm_compute in E. injection E as <- <-.
    vm_compute in Et. injection Et as <- _. do 3 eexists. reflexivity. }
  destruct Hr as (a & t' & ms & ->).
  destruct (train_logs_each_step Sample.rt Sample.cb _ _ _ _ _ _ _ _ _ _ Et)
    as (new & L & M).
  exists opt, w1, (a, t', ms), w', new.
  split; [reflexivity|]. split; [exact Et|]. split; [exact L|].
  rewrite M. cbn. unfold step_events. rewrite Hpf. reflexivity.
Defined.

Lemma epoch_updates_trainer_witness :
  exists opt w1 t' w',
    parse_option Sample.rt [] Sample.w0 = (Ok opt, w1) /\
    epoch_body Sample.rt Sample.cb opt (loader_of opt)
               {| temperature := temp opt; criterion_on_cuda := false |} 1
               (set_optimizer Sample.cb opt (bare CustomCNN)) w1
    = (Ok t', w') /\
    params t' = [2%float].
Proof.
  destruct (parse_option Sample.rt [] Sample.w0) as [r w1] eqn:E.
  assert (Hr : exists opt, r = Ok opt).
  { vm_compute in E. injection E as <- _. eexists. reflexivity. }
  destruct Hr as (opt & ->).
  pose proof E as E0. vm_compute in E0. injection E0 as <- <-.
  match type of E with
  | _ = (Ok ?o, ?w) => set (opt := o) in *; set (w1 := w) in *
  end.
  destruct (epoch_body Sample.rt Sample.cb opt (loader_of opt)
              {| temperature := temp opt; criterion_on_cuda := false |} 1
              (set_optimizer Sample.cb opt (bare CustomCNN)) w1)
    as [r' w'] eqn:E'.
  assert (Hr : exists t', r' = Ok t').
  { vm_compute in E'. injection E' as <- _. eexists. reflexivity. }
  destruct Hr as (t' & ->). exists opt, w1, t', w'.
  split; [exact E|]. split; [exact E'|].
  rewrite (epoch_updates_trainer Sample.rt Sample.cb _ _ _ _ _ _ _ _ E').
  vm_compute. reflexivity.
Defined.



Lemma logger_series_per_epoch_witness :
  exists w' new,
    main Sample.rt Sample.cb [Argparse.Opt "epochs" "2"] Sample.w0
      = (Ok tt, w') /\
    log w' = log Sample.w0 ++ new /\
    logged_series new
    = [("loss", 1); ("learning_rate", 1); ("loss", 2); ("learning_rate", 2)].
Proof.
  destruct (main Sample.rt Sample.cb [Argparse.Opt "epochs" "2"] Sample.w0)
    as [r w'] eqn:E.
  assert (Hr : r = Ok tt).
  { vm_compute in E. now injection E as <- _. }
  subst r.
  destruct (logger_series_per_epoch Sample.rt Sample.cb _ _ _ E)
    as (opt & w1 & n & new & Hp & _ & L & S & _).
  assert (He : epochs opt = 2).
  { vm_compute in Hp. now injection Hp as <- _. }
  exists w', new. split; [reflexivity|]. split; [exact L|].
  rewrite S, He. reflexivity.
Defined.

Lemma save_freq_zero_never_saves_witness :
  exists e w' new,
    main Sample.rt Sample.cb
         [Argparse.Opt "save_freq" "0"; Argparse.Opt "epochs" "1"] Sample.w0
    = (Raise e, w') /\
    log w' = log Sample.w0 ++ new /\ saves new = [].
Proof.
  destruct (parse_option Sample.rt
              [Argparse.Opt "save_freq" "0"; Argparse.Opt "epochs" "1"]
              Sample.w0) as [r w1] eqn:E.
  assert (Hr : exists opt, r = Ok opt /\ save_freq opt = 0 /\ epochs opt = 1).
  { vm_compute in E. injection E as <- _. eexists. repeat split. }
  destruct Hr as (opt & -> & Hz & He).
  apply (save_freq_zero_never_saves Sample.rt Sample.cb _ _ _ _ E Hz).
  rewrite He. lia.
Defined.

Lemma only_registry_models_built_witness :
  exists w' new,
    main Sample.rt Sample.cb [Argparse.Opt "epochs" "1"] Sample.w0
      = (Ok tt, w') /\
    log w' = log Sample.w0 ++ new /\
    models_built new = [CustomCNN].
Proof.
  destruct (main Sample.rt Sample.cb [Argparse.Opt "epochs" "1"] Sample.w0)
    as [r w'] eqn:E.
  assert (Hr : r = Ok tt /\ models_built (log w') = [CustomCNN]).
  { vm_compute in E. injection E as <- <-. split; reflexivity. }
  destruct Hr as (-> & Hb).
  destruct (only_registry_models_built Sample.rt Sample.cb _ _ _ _ E)
    as (new & L & _ & _).
  exists w', new. split; [reflexivity|]. split; [exact L|].
  rewrite L in Hb. exact Hb.
Defined.

Lemma paired_features_shape_witness :
  exists f1 f2,
    paired_features Sample.cb
      {| the_model := bare CustomCNN; params := [4%float]; lr := 1%float |}
      ([[1%float]; [2%float]], [[3%float]; [5%float]]) [0; 1]
    = Ok (pairs f1 f2) /\
    List.length (pairs f1 f2) = 2%nat.
Proof.
  destruct (proj2 (paired_features_shape Sample.cb
              {| the_model := bare CustomCNN; params := [4%float];
                 lr := 1%float |}
              [[1%float]; [2%float]] [[3%float]; [5%float]] [0; 1]))
    as (f1 & f2 & Hp & _ & _ & _ & Hl & _).
  - reflexivity.
  - exists f1, f2. split; [exact Hp|exact Hl].
Defined.

Lemma checkpoint_files_distinct_witness :
  exists opt w1,
    parse_option Sample.rt [] Sample.w0 = (Ok opt, w1) /\
    path_join (save_folder opt) ("ckpt_epoch_" ++ str_of_int 4 ++ ".pth")
    <> path_join (save_folder opt) ("ckpt_epoch_" ++ str_of_int 8 ++ ".pth").
Proof.
  destruct (parse_option Sample.rt [] Sample.w0) as [r w1] eqn:E.
  assert (Hr : exists opt, r = Ok opt).
  { vm_compute in E. injection E as <- _. eexists. reflexivity. }
  destruct Hr as (opt & ->). exists opt, w1. split; [reflexivity|].
  intros H. apply (proj1 (checkpoint_files_distinct opt 4 8)) in H.
  discriminate H.
Defined.
